(** * geokit/_core/util.py : the matrix scaler [scaleMatrix]

    A shallow embedding of [scaleMatrix] and of the part of numpy it uses.
    A 2-dimensional [numpy.ndarray] is a shape together with its rows; its
    element type is either [int64] (cells in [Z]) or [float64] (cells are
    binary64 values, the kernel's primitive floats).  Python exceptions are
    values of [exn]; a call returns [Ok v] or [Raise e]. *)

From Stdlib Require Import ZArith Floats String.
From Stdlib Require QArith.
From stdpp Require Import base tactics option list.

Local Open Scope Z_scope.
Local Open Scope nat_scope.

(** ** Exceptions and results *)

(** util.py, lines 25-31: the module's own errors derive from [GeoKitError];
    [ValueError] and [IndexError] are Python's. *)
Inductive exn : Type :=
  | ValueError (msg : string)
  | IndexError (msg : string)
  | GeoKitError (msg : string).

Inductive result (A : Type) : Type :=
  | Ok (a : A)
  | Raise (e : exn).
Arguments Ok {A} a.
Arguments Raise {A} e.

(** Sequencing: an exception ends the computation.  With the instance, stdpp's
    notation [x ← m; k] reads as a Python statement followed by the rest. *)
#[global] Instance result_bind : MBind result := fun A B k m =>
  match m with
  | Ok a => k a
  | Raise e => Raise e
  end.

(** [for i in l: s = body(i, s)], stopping at the first exception. *)
Fixpoint for_ {S : Type} (l : list nat) (body : nat -> S -> result S) (s : S)
  : result S :=
  match l with
  | [] => Ok s
  | i :: l' => s' ← body i s; for_ l' body s'
  end.

(** [range(n)] for a Python int [n]: empty when [n <= 0]. *)
Definition range (n : Z) : list nat := seq 0 (Z.to_nat n).

(** ** Python values that can be passed as [scale] *)

#[warnings="-register-all"]
Inductive pyobj : Type :=
  | PyInt (z : Z)
  | PyFloat (f : float)
  | PyTuple (items : list pyobj).

(** [isinstance(x, int)] *)
Definition isinstance_int (x : pyobj) : bool :=
  match x with
  | PyInt _ => true
  | _ => false
  end.

(** Lines 100-103: [yScale, xScale = scale] succeeds for a sequence of exactly
    two items; a scalar (not iterable) or a sequence of another length raises,
    and the bare [except] binds both names to [scale] itself. *)
Definition unpack_scale (scale : pyobj) : pyobj * pyobj :=
  match scale with
  | PyTuple [y; x] => (y, x)
  | _ => (scale, scale)
  end.

(** ** numpy arrays of dimension two *)

Record ndarray (A : Type) : Type := NDArray {
  shape : nat * nat;
  data : list (list A)
}.
Arguments NDArray {A} shape data.
Arguments shape {A} n.
Arguments data {A} n.

(** What numpy guarantees of every array: [shape[0]] rows of [shape[1]] cells. *)
Definition wf {A : Type} (a : ndarray A) : Prop :=
  length (data a) = (shape a).1 /\
  Forall (fun row => length row = (shape a).2) (data a).

(** [a[r, c]] for in-range non-negative indices. *)
Definition getitem {A : Type} (a : ndarray A) (r c : nat) : option A :=
  data a !! r ≫= fun row => row !! c.

(** [np.zeros((h, w), dtype)], [zero] being the zero of the element type. *)
Definition np_zeros {A : Type} (zero : A) (h w : nat) : ndarray A :=
  NDArray (h, w) (replicate h (replicate w zero)).

(** [len(range(o, n, k))]: the number of indices selected by the slice
    [o::k] on an axis of size [n] (for [k >= 1]). *)
Definition slice_len (n o k : nat) : nat := (n - o + (k - 1)) / k.

(** Whether index [i] is selected by the slice [o::k]. *)
Definition in_slice (o k i : nat) : bool :=
  (o <=? i) && ((i - o) mod k =? 0).

(** [l[0::k]], by walking the list [k] cells at a time. *)
Fixpoint stride_aux {A : Type} (fuel k : nat) (l : list A) : list A :=
  match fuel with
  | 0 => []
  | S fuel' =>
      match l with
      | [] => []
      | x :: _ => x :: stride_aux fuel' k (drop k l)
      end
  end.

(** [l[o::k]] *)
Definition strided {A : Type} (o k : nat) (l : list A) : list A :=
  stride_aux (length l) k (drop o l).

(** The view [a[yo::ys, xo::xs]]. *)
Definition getslice {A : Type} (a : ndarray A) (yo ys xo xs : nat) : ndarray A :=
  NDArray (slice_len (shape a).1 yo ys, slice_len (shape a).2 xo xs)
          (strided xo xs <$> strided yo ys (data a)).

Definition broadcast_error : exn :=
  ValueError "could not broadcast input array into shape".

(** Row part of a strided assignment: [dst[o::k] = src]. *)
Definition set_strided_row {A : Type} (o k : nat) (src dst : list A) : list A :=
  imap (fun j x => if in_slice o k j then default x (src !! ((j - o) / k)) else x)
       dst.

(** [out[yo::ys, xo::xs] = src].  numpy accepts the assignment when the shape of
    the view equals the shape of [src] (the broadcasts to a larger view, from a
    [src] with an axis of size one, are not needed by [scaleMatrix] and are
    refused here as any other mismatch). *)
Definition setslice {A : Type} (out : ndarray A) (yo ys xo xs : nat)
    (src : ndarray A) : result (ndarray A) :=
  if decide (shape (getslice out yo ys xo xs) = shape src) then
    Ok (NDArray (shape out)
          (imap (fun i row =>
                   if in_slice yo ys i then
                     match data src !! ((i - yo) / ys) with
                     | Some srow => set_strided_row xo xs srow row
                     | None => row
                     end
                   else row)
                (data out)))
  else Raise broadcast_error.

(** [out += src] on float arrays of equal shape. *)
Definition iadd (out src : ndarray float) : result (ndarray float) :=
  if decide (shape out = shape src) then
    Ok (NDArray (shape out)
          (zip_with (zip_with PrimFloat.add) (data out) (data src)))
  else Raise broadcast_error.

(** [a / d] for a float array and a float scalar. *)
Definition divide (a : ndarray float) (d : float) : ndarray float :=
  NDArray (shape a)
          ((fun row : list float => (fun x => PrimFloat.div x d) <$> row) <$> data a).

(** [np.concatenate((a, b), 0)] when the arrays agree on axis 1. *)
Definition concatenate0 {A : Type} (a b : ndarray A) : result (ndarray A) :=
  if decide ((shape a).2 = (shape b).2) then
    Ok (NDArray ((shape a).1 + (shape b).1, (shape a).2) (data a ++ data b))
  else Raise (ValueError "all the input array dimensions except for the concatenation axis must match exactly").

(** [np.concatenate((a, b), 1)] when the arrays agree on axis 0. *)
Definition concatenate1 {A : Type} (a b : ndarray A) : result (ndarray A) :=
  if decide ((shape a).1 = (shape b).1) then
    Ok (NDArray ((shape a).1, (shape a).2 + (shape b).2)
          (zip_with app (data a) (data b)))
  else Raise (ValueError "all the input array dimensions except for the concatenation axis must match exactly").

Definition index_error : exn :=
  IndexError "index -1 is out of bounds for axis with size 0".

(** [out[:-1, -1] *= f]: the last column, all rows but the last.  The integer
    index [-1] needs a non-empty axis 1. *)
Definition imul_lastcol_above (out : ndarray float) (f : float)
  : result (ndarray float) :=
  let '(h, w) := shape out in
  if decide (w = 0) then Raise index_error
  else Ok (NDArray (shape out)
             (imap (fun i row =>
                      if decide (i < h - 1)
                      then alter (fun x => PrimFloat.mul x f) (w - 1) row
                      else row)
                   (data out))).

(** [out[-1, :-1] *= f]: the last row, all columns but the last.  The integer
    index [-1] needs a non-empty axis 0. *)
Definition imul_lastrow_left (out : ndarray float) (f : float)
  : result (ndarray float) :=
  let '(h, w) := shape out in
  if decide (h = 0) then Raise index_error
  else Ok (NDArray (shape out)
             (alter (imap (fun j x =>
                             if decide (j < w - 1) then PrimFloat.mul x f else x))
                    (h - 1) (data out))).

(** [out[-1, -1] *= f]: the bottom-right cell; both axes must be non-empty. *)
Definition imul_corner (out : ndarray float) (f : float)
  : result (ndarray float) :=
  let '(h, w) := shape out in
  if decide (h = 0 \/ w = 0) then Raise index_error
  else Ok (NDArray (shape out)
             (alter (alter (fun x => PrimFloat.mul x f) (w - 1)) (h - 1)
                    (data out))).

(** ** Element types *)

Inductive dtype : Type := int64 | float64.

(** A numeric 2-D array as Python sees it: an array of either element type. *)
Inductive pyarray : Type :=
  | IntArray (a : ndarray Z)
  | FloatArray (a : ndarray float).

Definition dtype_of (mat : pyarray) : dtype :=
  match mat with
  | IntArray _ => int64
  | FloatArray _ => float64
  end.

(** [mat.shape] *)
Definition pyshape (mat : pyarray) : nat * nat :=
  match mat with
  | IntArray a => shape a
  | FloatArray a => shape a
  end.

Definition pywf (mat : pyarray) : Prop :=
  match mat with
  | IntArray a => wf a
  | FloatArray a => wf a
  end.

(** A cell read from an array of either element type. *)
Inductive number : Type :=
  | NInt (z : Z)
  | NFloat (f : float).

(** [mat[r, c]] *)
Definition pygetitem (mat : pyarray) (r c : nat) : option number :=
  match mat with
  | IntArray a => NInt <$> getitem a r c
  | FloatArray a => NFloat <$> getitem a r c
  end.

(** The binary64 value nearest to an integer (ties to even): the conversion
    numpy applies to an [int64] cell, or to a Python int operand, that meets a
    [float64] array. *)
Definition of_int (z : Z) : float :=
  SF2Prim (binary_normalize prec emax z 0 false).

Definition to_float (v : number) : float :=
  match v with
  | NInt z => of_int z
  | NFloat f => f
  end.

(** The cells of [mat] as [float64].  In [scaleMatrix] an integer matrix is
    converted cell by cell either by [np.concatenate] with the float zeros
    (line 133, 134) or by [out += ...] into the float [out] (line 139); the
    conversion is the same in both places and is applied here once. *)
Definition astype_float (mat : pyarray) : ndarray float :=
  match mat with
  | IntArray a =>
      NDArray (shape a) ((fun row : list Z => of_int <$> row) <$> data a)
  | FloatArray a => a
  end.

(** Python's [a / b] on ints, for operands that binary64 represents exactly
    (the scale factors here; the divisor is never zero where this is used). *)
Definition truediv (a b : Z) : float := PrimFloat.div (of_int a) (of_int b).

(** ** [scaleMatrix] *)

(** Line 107 *)
Definition InvalidScaleType : exn := ValueError "scale must be integer types".
(** Line 122 *)
Definition NonDivisibleDimension : exn :=
  GeoKitError "Matrix can only be scaled down by a factor of it's dimensions".
(** Line 148 *)
Definition IncompatibleScaleDirection : exn :=
  GeoKitError "Dimensions must be scaled in the same direction".

(** Lines 111-114, for an array of element type [A] with zero [zero]. *)
Definition scale_up {A : Type} (zero : A) (mat : ndarray A) (yScale xScale : Z)
  : result (ndarray A) :=
  let out := np_zeros zero (Z.to_nat (Z.of_nat (shape mat).1 * yScale))
                           (Z.to_nat (Z.of_nat (shape mat).2 * xScale)) in
  for_ (range yScale) (fun yo out =>
    for_ (range xScale) (fun xo out =>
      setslice out yo (Z.to_nat yScale) xo (Z.to_nat xScale) mat) out) out.

(** Lines 126-130: the amounts to pad, for the positive scales. *)
Definition pad_amounts (shp : nat * nat) (yScale xScale : Z) : Z * Z :=
  let yPad := (yScale - Z.of_nat shp.1 mod yScale)%Z in
  let xPad := (xScale - Z.of_nat shp.2 mod xScale)%Z in
  let yPad := if (yPad =? yScale)%Z then 0%Z else yPad in
  let xPad := if (xPad =? xScale)%Z then 0%Z else xPad in
  (yPad, xPad).

(** Lines 133-134 *)
Definition pad_matrix (mat : ndarray float) (yPad xPad : Z)
  : result (ndarray float) :=
  mat ← (if (0 <? yPad)%Z
         then concatenate0 mat (np_zeros 0%float (Z.to_nat yPad) (shape mat).2)
         else Ok mat);
  (if (0 <? xPad)%Z
   then concatenate1 mat (np_zeros 0%float (shape mat).1 (Z.to_nat xPad))
   else Ok mat).

(** Lines 136-140: the block sums, then the division by the block size. *)
Definition block_means (mat : ndarray float) (yScale xScale : Z)
  : result (ndarray float) :=
  let out := np_zeros 0%float (Z.to_nat (Z.of_nat (shape mat).1 / yScale))
                              (Z.to_nat (Z.of_nat (shape mat).2 / xScale)) in
  out ← for_ (range yScale) (fun yo out =>
          for_ (range xScale) (fun xo out =>
            iadd out (getslice mat yo (Z.to_nat yScale) xo (Z.to_nat xScale)))
          out) out;
  Ok (divide out (of_int (xScale * yScale))).

(** Lines 143-145 *)
Definition correct_edges (out : ndarray float) (yScale xScale yPad xPad : Z)
  : result (ndarray float) :=
  out ← (if (0 <? yPad)%Z
         then imul_lastcol_above out (truediv yScale (yScale - yPad))
         else Ok out);
  out ← (if (0 <? xPad)%Z
         then imul_lastrow_left out (truediv xScale (xScale - xPad))
         else Ok out);
  (if (0 <? yPad)%Z
   then imul_corner out
          (PrimFloat.div (truediv (yScale * xScale) (yScale - yPad))
                         (of_int (xScale - xPad)))
   else Ok out).

(** Lines 117-145.  The strict check and the pad amounts read [mat.shape]
    alone; the cells are first read by the padding or by the block sums. *)
Definition scale_down (mat0 : pyarray) (yScale xScale : Z) (strict : bool)
  : result (ndarray float) :=
  let xScale := (-1 * xScale)%Z in
  let yScale := (-1 * yScale)%Z in
  '(yPad, xPad, mat) ←
    (if strict then
       if negb ((Z.of_nat (pyshape mat0).1 mod yScale =? 0)%Z
                && (Z.of_nat (pyshape mat0).2 mod xScale =? 0)%Z)
       then Raise NonDivisibleDimension
       else Ok (0%Z, 0%Z, astype_float mat0)
     else
       let '(yPad, xPad) := pad_amounts (pyshape mat0) yScale xScale in
       mat ← pad_matrix (astype_float mat0) yPad xPad;
       Ok (yPad, xPad, mat));
  out ← block_means mat yScale xScale;
  correct_edges out yScale xScale yPad xPad.

(** Lines 42-150.  Past the check of line 106 both scales are ints; the last
    branch of the [match] is never taken. *)
Definition scaleMatrix (mat : pyarray) (scale : pyobj) (strict : bool)
  : result pyarray :=
  let '(yScale, xScale) := unpack_scale scale in
  if negb (isinstance_int xScale && isinstance_int yScale)
  then Raise InvalidScaleType
  else
    match yScale, xScale with
    | PyInt yScale, PyInt xScale =>
        if ((xScale =? 0) && (yScale =? 0))%Z then Ok mat
        else if ((0 <? xScale) && (0 <? yScale))%Z then
          match mat with
          | IntArray a => out ← scale_up 0%Z a yScale xScale; Ok (IntArray out)
          | FloatArray a =>
              out ← scale_up 0%float a yScale xScale; Ok (FloatArray out)
          end
        else if ((xScale <? 0) && (yScale <? 0))%Z then
          out ← scale_down mat yScale xScale strict; Ok (FloatArray out)
        else Raise IncompatibleScaleDirection
    | _, _ => Raise InvalidScaleType
    end.

(** An integer matrix, and a float matrix, from non-empty rows of one length. *)
Definition int_matrix (rows : list (list Z)) : pyarray :=
  IntArray (NDArray (length rows, length (hd [] rows)) rows).

Definition float_matrix (rows : list (list float)) : pyarray :=
  FloatArray (NDArray (length rows, length (hd [] rows)) rows).

(** ** Means of blocks *)

(** The cells of [a] that the [Y]x[X] block of the output cell [(r, c)]
    covers, row by row; a position outside [a] contributes no cell. *)
Definition block_cells {A : Type} (a : ndarray A) (Y X r c : nat) : list A :=
  yo ← seq 0 Y; xo ← seq 0 X; option_list (getitem a (r * Y + yo) (c * X + xo)).

(** The binary64 sum of a list, from 0.0, left to right. *)
Definition fsum (vs : list float) : float := foldl PrimFloat.add 0%float vs.

(** The arithmetic mean of a list, computed in binary64. *)
Definition fmean (vs : list float) : float :=
  PrimFloat.div (fsum vs) (of_int (Z.of_nat (length vs))).

(** ** The edge correction in the words of the specification *)

(** What the specification asks of the correction, given the block means of
    the padded matrix: with [yPad > 0] the cells of the last row but the
    corner are multiplied by [Y/(Y - yPad)], with [xPad > 0] the cells of the
    last column but the corner by [X/(X - xPad)], and with either pad nonzero
    the bottom-right corner by [(Y*X)/((Y - yPad)*(X - xPad))]. *)
Definition correct_edges_spec (out : ndarray float) (Y X yPad xPad : Z)
  : ndarray float :=
  let '(h, w) := shape out in
  NDArray (shape out)
    (imap (fun i row =>
       imap (fun j v =>
         if (i =? h - 1) && (j =? w - 1) then
           if ((0 <? yPad) || (0 <? xPad))%Z
           then PrimFloat.mul v (truediv (Y * X) ((Y - yPad) * (X - xPad)))
           else v
         else if i =? h - 1 then
           if (0 <? yPad)%Z then PrimFloat.mul v (truediv Y (Y - yPad)) else v
         else if j =? w - 1 then
           if (0 <? xPad)%Z then PrimFloat.mul v (truediv X (X - xPad)) else v
         else v) row)
       (data out)).

(** ** Example matrices *)

Definition G22 : pyarray := int_matrix [[1; 2]; [3; 4]]%Z.

(** The 4x4 matrix of the docstring. *)
Definition G44 : pyarray :=
  int_matrix [[1; 1; 1; 1]; [2; 2; 3; 3]; [4; 4; 5; 5]; [6; 7; 8; 9]]%Z.

Definition G34 : pyarray :=
  int_matrix [[1; 2; 3; 4]; [5; 6; 7; 8]; [9; 10; 11; 12]]%Z.

Definition G43 : pyarray :=
  int_matrix [[1; 2; 3]; [4; 5; 6]; [7; 8; 9]; [10; 11; 12]]%Z.

Definition G35 : pyarray :=
  int_matrix [[1; 2; 3; 4; 5]; [6; 7; 8; 9; 10]; [11; 12; 13; 14; 15]]%Z.

(** The binary64 value written 0.1 in Python, and its successor
    0.10000000000000002. *)
Definition tenth : float := 0x1.999999999999ap-4%float.
Definition tenth_succ : float := 0x1.999999999999bp-4%float.

Definition G11 : pyarray := float_matrix [[tenth]].

Definition G31 : pyarray := float_matrix [[tenth]; [tenth]; [tenth]].

(** ** The edge correction cell by cell *)

(** Lines 143-145 read at one cell: what the three updates make of the value
    [v] held at [(r, c)] in a matrix of shape [(h, w)]. *)
Definition corrected_cell (h w : nat) (yScale xScale yPad xPad : Z)
    (r c : nat) (v : float) : float :=
  let v := if decide ((0 < yPad)%Z /\ r < h - 1 /\ c = w - 1)
           then PrimFloat.mul v (truediv yScale (yScale - yPad)) else v in
  let v := if decide ((0 < xPad)%Z /\ r = h - 1 /\ c < w - 1)
           then PrimFloat.mul v (truediv xScale (xScale - xPad)) else v in
  if decide ((0 < yPad)%Z /\ r = h - 1 /\ c = w - 1)
  then PrimFloat.mul v
         (PrimFloat.div (truediv (yScale * xScale) (yScale - yPad))
                        (of_int (xScale - xPad)))
  else v.

(** ** [isclose] *)

(** Python's [max(x, y)] on floats: [y] when [y > x], else [x]. *)
Definition py_max (x y : float) : float :=
  if PrimFloat.ltb x y then y else x.

(** Lines 35-39, on floats. *)
Definition isclose (a b rel_tol abs_tol : float) : bool :=
  PrimFloat.leb
    (PrimFloat.abs (PrimFloat.sub a b))
    (py_max (PrimFloat.mul rel_tol
               (py_max (PrimFloat.abs a) (PrimFloat.abs b)))
            abs_tol).

(** The defaults of the signature: [rel_tol=1e-09], [abs_tol=0.0]. *)
Definition default_rel_tol : float := 0x1.12e0be826d695p-30%float.
Definition default_abs_tol : float := 0%float.

(** ** Exact means *)

(** The rational number a finite binary64 value stands for; an infinity and
    NaN stand for none. *)
Definition exact_value (f : float) : option QArith_base.Q :=
  match Prim2SF f with
  | S754_zero _ => Some (QArith_base.inject_Z 0)
  | S754_finite s m e =>
      Some (QArith_base.Qmult
              (QArith_base.inject_Z (if s then Z.neg m else Z.pos m))
              (QArith_base.Qpower (QArith_base.inject_Z 2) e))
  | _ => None
  end.

(** The sum of a list of binary64 values as a rational, with no rounding. *)
Fixpoint exact_sum (vs : list float) : option QArith_base.Q :=
  match vs with
  | [] => Some (QArith_base.inject_Z 0)
  | v :: vs' =>
      match exact_value v, exact_sum vs' with
      | Some q, Some s => Some (QArith_base.Qplus q s)
      | _, _ => None
      end
  end.

(** The exact arithmetic mean of a list of binary64 values. *)
Definition exact_mean (vs : list float) : option QArith_base.Q :=
  match exact_sum vs with
  | Some s =>
      Some (QArith_base.Qdiv s (QArith_base.inject_Z (Z.of_nat (length vs))))
  | None => None
  end.

(** Whether the binary64 value [v] is the exact arithmetic mean of [vs]. *)
Definition is_exact_mean (v : float) (vs : list float) : bool :=
  match exact_value v, exact_mean vs with
  | Some a, Some b => QArith_base.Qeq_bool a b
  | _, _ => false
  end.

(** * Properties *)

(** Well-formedness of a matrix given by its rows. *)
Ltac solve_wf := split; [reflexivity | repeat constructor].

(** ** The monad and the loops *)

(** A loop whose body keeps an invariant indexed by the iterations already
    made runs to its end and establishes the invariant of the whole list. *)
Lemma for_invariant_from {S : Type} (I : list nat -> S -> Prop)
    (body : nat -> S -> result S) (l0 l : list nat) :
  (forall done i s, I done s -> i ∈ l0 ->
     exists s', body i s = Ok s' /\ I (done ++ [i]) s') ->
  (forall i, i ∈ l -> i ∈ l0) ->
  forall pre s, I pre s ->
    exists s', for_ l body s = Ok s' /\ I (pre ++ l) s'.
Proof.
  intros Hstep. induction l as [|i l IH]; intros Hsub pre s HI.
  - exists s. by rewrite app_nil_r.
  - destruct (Hstep pre i s HI) as (s1 & Hb & HI1); [apply Hsub; left|].
    destruct (IH (fun j Hj => Hsub j (list_elem_of_further _ _ _ Hj))
                 (pre ++ [i]) s1 HI1) as (s' & Hf & HI').
    exists s'. simpl. rewrite Hb. simpl. split; [done|].
    by rewrite <- app_assoc in HI'.
Qed.

Lemma for_invariant {S : Type} (I : list nat -> S -> Prop)
    (l : list nat) (body : nat -> S -> result S) (s : S) :
  I [] s ->
  (forall done i s, I done s -> i ∈ l ->
     exists s', body i s = Ok s' /\ I (done ++ [i]) s') ->
  exists s', for_ l body s = Ok s' /\ I l s'.
Proof.
  intros H0 Hstep.
  apply (for_invariant_from I body l l Hstep (fun _ H => H) [] s H0).
Qed.

Lemma elem_of_range (n : Z) (i : nat) : i ∈ range n <-> (Z.of_nat i < n)%Z.
Proof. unfold range. rewrite elem_of_seq. lia. Qed.

(** ** Validation of [scale] *)

Lemma scaleMatrix_ints (mat : pyarray) (y x : Z) (strict : bool) :
  scaleMatrix mat (PyTuple [PyInt y; PyInt x]) strict =
    if ((x =? 0) && (y =? 0))%Z then Ok mat
    else if ((0 <? x) && (0 <? y))%Z then
      match mat with
      | IntArray a => out ← scale_up 0%Z a y x; Ok (IntArray out)
      | FloatArray a => out ← scale_up 0%float a y x; Ok (FloatArray out)
      end
    else if ((x <? 0) && (y <? 0))%Z then
      out ← scale_down mat y x strict; Ok (FloatArray out)
    else Raise IncompatibleScaleDirection.
Proof. reflexivity. Qed.

Lemma scaleMatrix_not_int (mat : pyarray) (y x : pyobj) (strict : bool) :
  isinstance_int y = false \/ isinstance_int x = false ->
  scaleMatrix mat (PyTuple [y; x]) strict = Raise InvalidScaleType.
Proof.
  intros H. unfold scaleMatrix, unpack_scale.
  destruct H as [H|H]; rewrite H; simpl; [|done].
  by rewrite andb_false_r.
Qed.

(** C9: the integer check comes first.  A pair with a component that is not
    an int raises the invalid-scale-type error whatever the other component
    and whatever the signs; (1.5, -2) is such a pair. *)
Theorem type_check_precedes_direction_check
    (mat : pyarray) (y x : pyobj) (strict : bool) :
  isinstance_int y = false \/ isinstance_int x = false ->
  scaleMatrix mat (PyTuple [y; x]) strict = Raise InvalidScaleType /\
  scaleMatrix mat (PyTuple [y; x]) strict <> Raise IncompatibleScaleDirection.
Proof.
  intros H. rewrite (scaleMatrix_not_int mat y x strict H). split; [done|].
  discriminate.
Qed.

Lemma type_check_precedes_direction_check_witness :
  scaleMatrix G22
              (PyTuple [PyFloat 1.5; PyInt (-2)]) true
    = Raise InvalidScaleType /\
  scaleMatrix G22
              (PyTuple [PyFloat 1.5; PyInt (-2)]) true
    <> Raise IncompatibleScaleDirection.
Proof.
  apply (type_check_precedes_direction_check
           G22 (PyFloat 1.5) (PyInt (-2)) true).
  left. reflexivity.
Defined.

(** C10: a pair with exactly one zero component is neither the no-op nor a
    scaling: it raises the mixed-direction error. *)
Theorem one_zero_component_rejected (mat : pyarray) (n : Z) (strict : bool) :
  n <> 0%Z ->
  scaleMatrix mat (PyTuple [PyInt 0; PyInt n]) strict
    = Raise IncompatibleScaleDirection /\
  scaleMatrix mat (PyTuple [PyInt n; PyInt 0]) strict
    = Raise IncompatibleScaleDirection.
Proof.
  intros Hn. rewrite !scaleMatrix_ints.
  assert ((n =? 0)%Z = false) as -> by lia.
  simpl. rewrite !andb_false_r. simpl. done.
Qed.

Lemma one_zero_component_rejected_witness :
  scaleMatrix G22 (PyTuple [PyInt 0; PyInt 3]) false
    = Raise IncompatibleScaleDirection /\
  scaleMatrix G22 (PyTuple [PyInt 3; PyInt 0]) false
    = Raise IncompatibleScaleDirection.
Proof.
  apply (one_zero_component_rejected G22 3 false).
  lia.
Defined.

(** C7: the scale (0, 0), or the single integer 0, returns the matrix it was
    given. *)
Theorem zero_scale_is_noop (mat : pyarray) (strict : bool) :
  scaleMatrix mat (PyTuple [PyInt 0; PyInt 0]) strict = Ok mat /\
  scaleMatrix mat (PyInt 0) strict = Ok mat.
Proof. split; reflexivity. Qed.

(** C6: for every matrix, a pair of ints of opposite signs raises the
    mixed-direction error, a pair with a component that is not an int raises
    the invalid-scale-type error, and a strict down-scaling by magnitudes that
    do not both divide the dimensions raises the non-divisible-dimension
    error.  The results hold for every content of the matrix (the third
    depends on its shape alone) and are errors: no matrix is returned. *)
Theorem scaleMatrix_rejections (mat : pyarray) (strict : bool) :
  (forall y x : Z, (0 < y /\ x < 0)%Z \/ (y < 0 /\ 0 < x)%Z ->
     scaleMatrix mat (PyTuple [PyInt y; PyInt x]) strict
       = Raise IncompatibleScaleDirection) /\
  (forall y x : pyobj, isinstance_int y = false \/ isinstance_int x = false ->
     scaleMatrix mat (PyTuple [y; x]) strict = Raise InvalidScaleType) /\
  (forall y x : Z, (0 < y)%Z -> (0 < x)%Z ->
     ~ ((Z.of_nat (pyshape mat).1 mod y = 0)%Z /\
        (Z.of_nat (pyshape mat).2 mod x = 0)%Z) ->
     scaleMatrix mat (PyTuple [PyInt (- y); PyInt (- x)]) true
       = Raise NonDivisibleDimension) /\
  scaleMatrix mat (PyTuple [PyInt 2; PyInt (-2)]) strict
    = Raise IncompatibleScaleDirection /\
  scaleMatrix mat (PyTuple [PyFloat 1.5; PyFloat 1.5]) strict
    = Raise InvalidScaleType /\
  scaleMatrix mat (PyFloat 1.5) strict = Raise InvalidScaleType /\
  (pyshape mat = (3, 5) ->
   scaleMatrix mat (PyTuple [PyInt (-2); PyInt (-2)]) true
     = Raise NonDivisibleDimension).
Proof.
  assert (Hdiv : forall y x : Z, (0 < y)%Z -> (0 < x)%Z ->
     ~ ((Z.of_nat (pyshape mat).1 mod y = 0)%Z /\
        (Z.of_nat (pyshape mat).2 mod x = 0)%Z) ->
     scaleMatrix mat (PyTuple [PyInt (- y); PyInt (- x)]) true
       = Raise NonDivisibleDimension).
  { intros y x Hy Hx Hnd. rewrite scaleMatrix_ints.
    assert ((- x =? 0)%Z = false) as -> by lia.
    assert ((0 <? - x)%Z = false) as -> by lia.
    assert ((- x <? 0)%Z = true) as -> by lia.
    assert ((- y <? 0)%Z = true) as -> by lia.
    simpl. unfold scale_down.
    replace (-1 * - y)%Z with y by lia. replace (-1 * - x)%Z with x by lia.
    destruct (Z.eqb_spec (Z.of_nat (pyshape mat).1 mod y) 0);
      destruct (Z.eqb_spec (Z.of_nat (pyshape mat).2 mod x) 0);
      simpl; try done.
    exfalso. by apply Hnd. }
  split_and!; try reflexivity.
  - intros y x Hs. rewrite scaleMatrix_ints.
    destruct Hs as [[Hy Hx]|[Hy Hx]].
    + assert ((x =? 0)%Z = false) as -> by lia.
      assert ((0 <? x)%Z = false) as -> by lia.
      assert ((y <? 0)%Z = false) as -> by lia.
      simpl. by rewrite andb_false_r.
    + assert ((x =? 0)%Z = false) as -> by lia.
      assert ((0 <? y)%Z = false) as -> by lia.
      assert ((x <? 0)%Z = false) as -> by lia.
      simpl. by rewrite andb_false_r.
  - intros y x. apply scaleMatrix_not_int.
  - exact Hdiv.
  - intros Hs. apply (Hdiv 2%Z 2%Z); [lia|lia|]. rewrite Hs. simpl.
    intros [H _]. discriminate H.
Qed.

Lemma scaleMatrix_rejections_witness :
  scaleMatrix G35
              (PyTuple [PyInt (-2); PyInt (-2)]) true
    = Raise NonDivisibleDimension.
Proof.
  apply (scaleMatrix_rejections
           G35 true).
  reflexivity.
Defined.

(** ** Strided slices *)

Lemma in_slice_true (o k i : nat) :
  o < k -> in_slice o k i = true <-> i mod k = o.
Proof.
  intros Hok. unfold in_slice.
  rewrite andb_true_iff, Nat.leb_le, Nat.eqb_eq.
  pose proof (Nat.div_mod_eq i k) as Hi.
  pose proof (Nat.mod_upper_bound i k ltac:(lia)) as Hr.
  split.
  - intros [Hle Hm].
    pose proof (Nat.div_mod_eq (i - o) k) as Hio. rewrite Hm in Hio.
    symmetry. apply (Nat.mod_unique i k ((i - o) / k) o); lia.
  - intros Hm. split; [lia|].
    symmetry. apply (Nat.mod_unique (i - o) k (i / k) 0); lia.
Qed.

Lemma in_slice_mod (o k i : nat) :
  o < k -> in_slice o k i = (i mod k =? o).
Proof.
  intros Hok. apply eq_true_iff_eq.
  rewrite (in_slice_true o k i Hok), Nat.eqb_eq. done.
Qed.

Lemma in_slice_div (o k i : nat) :
  o < k -> i mod k = o -> (i - o) / k = i / k.
Proof.
  intros Hok Hm. pose proof (Nat.div_mod_eq i k) as Hi.
  symmetry. apply (Nat.div_unique (i - o) k (i / k) 0); lia.
Qed.

Lemma slice_len_mul (n o k : nat) : o < k -> slice_len (n * k) o k = n.
Proof.
  intros Hok. unfold slice_len. destruct n as [|n].
  - simpl. apply Nat.div_small. lia.
  - symmetry. apply (Nat.div_unique _ k (S n) (k - 1 - o)); lia.
Qed.

Lemma div_lt_mul (i n k : nat) : i < n * k -> i / k < n.
Proof.
  intros Hi. destruct (decide (k = 0)) as [->|Hk]; [lia|].
  apply Nat.Div0.div_lt_upper_bound. lia.
Qed.

Lemma lookup_stride_aux {A : Type} (fuel k : nat) (l : list A) (i : nat) :
  1 <= k -> length l <= fuel -> stride_aux fuel k l !! i = l !! (i * k).
Proof.
  intros Hk. revert l i. induction fuel as [|fuel IH]; intros l i Hlen.
  - destruct l; [|simpl in Hlen; lia]. by rewrite !lookup_nil.
  - destruct l as [|x l]; [by rewrite !lookup_nil|].
    destruct i as [|i]; simpl; [done|].
    rewrite IH.
    + rewrite lookup_drop. f_equal; lia.
    + rewrite length_drop. simpl in *. lia.
Qed.

Lemma lookup_strided {A : Type} (o k : nat) (l : list A) (i : nat) :
  1 <= k -> strided o k l !! i = l !! (o + i * k).
Proof.
  intros Hk. unfold strided. rewrite lookup_stride_aux; [|done|].
  - by rewrite lookup_drop.
  - rewrite length_drop. lia.
Qed.

Lemma length_stride_aux {A : Type} (fuel k : nat) (l : list A) :
  1 <= k -> length l <= fuel ->
  length (stride_aux fuel k l) = (length l + (k - 1)) / k.
Proof.
  intros Hk. revert l. induction fuel as [|fuel IH]; intros l Hlen.
  - destruct l; [|simpl in Hlen; lia]. simpl. symmetry.
    apply Nat.div_small. lia.
  - destruct l as [|x l].
    { simpl. symmetry. apply Nat.div_small. lia. }
    cbn [stride_aux length]. rewrite IH.
    2:{ rewrite length_drop. simpl in *. lia. }
    rewrite length_drop. cbn [length].
    destruct (decide (k <= S (length l))) as [Hle|Hgt].
    + replace (S (length l) + (k - 1)) with ((S (length l) - k + (k - 1)) + 1 * k)
        by lia.
      rewrite Nat.div_add; lia.
    + replace (S (length l) - k) with 0 by lia.
      rewrite (Nat.div_small (0 + (k - 1)) k) by lia.
      apply (Nat.div_unique _ k 1 (S (length l) - 1)); lia.
Qed.

Lemma length_strided {A : Type} (o k : nat) (l : list A) :
  1 <= k -> length (strided o k l) = slice_len (length l) o k.
Proof.
  intros Hk. unfold strided, slice_len.
  rewrite length_stride_aux; [|done|rewrite length_drop; lia].
  by rewrite length_drop.
Qed.

(** ** Cells of the arrays built by the numpy operations *)

Lemma wf_getitem {A : Type} (a : ndarray A) (r c : nat) :
  wf a -> r < (shape a).1 -> c < (shape a).2 -> is_Some (getitem a r c).
Proof.
  intros [Hlen Hrows] Hr Hc. unfold getitem.
  destruct (lookup_lt_is_Some_2 (data a) r ltac:(lia)) as [row Hrow].
  rewrite Hrow. simpl. apply lookup_lt_is_Some_2.
  rewrite (Forall_lookup_1 _ _ _ _ Hrows Hrow). done.
Qed.

Lemma wf_np_zeros {A : Type} (z : A) (h w : nat) : wf (np_zeros z h w).
Proof.
  split; simpl; [apply length_replicate|].
  apply Forall_replicate, length_replicate.
Qed.

Lemma getitem_np_zeros {A : Type} (z : A) (h w r c : nat) :
  r < h -> c < w -> getitem (np_zeros z h w) r c = Some z.
Proof.
  intros Hr Hc. unfold getitem, np_zeros. simpl.
  rewrite lookup_replicate_2 by done. simpl. by apply lookup_replicate_2.
Qed.

Lemma getitem_getslice {A : Type} (a : ndarray A) (yo ys xo xs r c : nat) :
  1 <= ys -> 1 <= xs ->
  getitem (getslice a yo ys xo xs) r c = getitem a (yo + r * ys) (xo + c * xs).
Proof.
  intros Hy Hx. unfold getitem, getslice. simpl.
  rewrite list_lookup_fmap, lookup_strided by done.
  destruct (data a !! (yo + r * ys)) as [row|]; simpl; [|done].
  by apply lookup_strided.
Qed.

Lemma wf_getslice {A : Type} (a : ndarray A) (yo ys xo xs : nat) :
  1 <= ys -> 1 <= xs -> wf a -> wf (getslice a yo ys xo xs).
Proof.
  intros Hy Hx [Hlen Hrows]. split; simpl.
  - rewrite length_fmap, length_strided by done. by rewrite Hlen.
  - apply Forall_fmap, Forall_lookup. intros i row Hi. simpl.
    rewrite lookup_strided in Hi by done.
    rewrite length_strided by done.
    by rewrite (Forall_lookup_1 _ _ _ _ Hrows Hi).
Qed.

(** The strided assignment of [scale_up]: the view of [out] at offsets
    [(yo, xo)] has the shape of [src], and the assignment writes [src[i, j]]
    at [out[yo + i*Y, xo + j*X]], leaving the other cells. *)
Lemma setslice_block {A : Type} (out src : ndarray A) (H W Y X yo xo : nat) :
  wf out -> wf src -> shape out = (H * Y, W * X) -> shape src = (H, W) ->
  yo < Y -> xo < X ->
  exists out', setslice out yo Y xo X src = Ok out' /\ wf out' /\
    shape out' = (H * Y, W * X) /\
    forall r c, r < H * Y -> c < W * X ->
      getitem out' r c =
        if (r mod Y =? yo) && (c mod X =? xo)
        then getitem src (r / Y) (c / X)
        else getitem out r c.
Proof.
  intros [Hlo Hro] [Hls Hrs] Hso Hss Hyo Hxo. unfold setslice.
  rewrite Hso in Hlo, Hro. rewrite Hss in Hls, Hrs.
  simpl in Hlo, Hro, Hls, Hrs.
  assert (shape (getslice out yo Y xo X) = (H, W)) as ->.
  { unfold getslice. simpl. rewrite Hso. simpl.
    by rewrite !slice_len_mul. }
  rewrite Hss, decide_True by done.
  eexists. split; [reflexivity|]. split; [|split; [done|]].
  - split; simpl; rewrite Hso; simpl.
    + by rewrite length_imap.
    + apply Forall_lookup. intros i row' Hi.
      rewrite list_lookup_imap in Hi.
      destruct (data out !! i) as [row|] eqn:Hrow; [|done].
      simpl in Hi. injection Hi as <-.
      pose proof (Forall_lookup_1 _ _ _ _ Hro Hrow) as Hlr.
      destruct (in_slice yo Y i); [|done].
      destruct (data src !! _); [|done].
      unfold set_strided_row. by rewrite length_imap.
  - intros r c Hr Hc. unfold getitem at 1. simpl.
    rewrite list_lookup_imap.
    destruct (lookup_lt_is_Some_2 (data out) r ltac:(lia)) as [row Hrow].
    pose proof (Forall_lookup_1 _ _ _ _ Hro Hrow) as Hlr. simpl in Hlr.
    destruct (lookup_lt_is_Some_2 row c ltac:(lia)) as [x Hx].
    assert (Hout : getitem out r c = Some x).
    { unfold getitem. rewrite Hrow. simpl. done. }
    rewrite Hrow. simpl. rewrite (in_slice_mod yo Y r Hyo).
    destruct (Nat.eqb_spec (r mod Y) yo) as [Hry|Hry]; simpl;
      [|by rewrite Hout].
    rewrite (in_slice_div yo Y r Hyo Hry).
    destruct (lookup_lt_is_Some_2 (data src) (r / Y)
                ltac:(rewrite Hls; by apply div_lt_mul)) as [srow Hsrow].
    pose proof (Forall_lookup_1 _ _ _ _ Hrs Hsrow) as Hlsr. simpl in Hlsr.
    rewrite Hsrow. unfold set_strided_row. rewrite list_lookup_imap, Hx. simpl.
    rewrite (in_slice_mod xo X c Hxo).
    destruct (Nat.eqb_spec (c mod X) xo) as [Hcx|Hcx]; [|by rewrite Hout].
    rewrite (in_slice_div xo X c Hxo Hcx).
    destruct (lookup_lt_is_Some_2 srow (c / X)
                ltac:(rewrite Hlsr; by apply div_lt_mul)) as [v Hv].
    rewrite Hv. simpl. unfold getitem. rewrite Hsrow. simpl. done.
Qed.

Lemma iadd_cells (out src : ndarray float) :
  shape out = shape src -> wf out -> wf src ->
  exists out', iadd out src = Ok out' /\ wf out' /\ shape out' = shape out /\
    forall r c, getitem out' r c =
      (x ← getitem out r c; y ← getitem src r c; Some (PrimFloat.add x y)).
Proof.
  intros Hs [Hlo Hro] [Hls Hrs]. unfold iadd. rewrite decide_True by done.
  eexists. split; [reflexivity|]. split; [|split; [done|]].
  - split; simpl.
    + rewrite length_zip_with, Hlo, Hls, <- Hs. lia.
    + apply Forall_lookup. intros i row Hi. rewrite lookup_zip_with in Hi.
      destruct (data out !! i) as [r1|] eqn:H1; [|done].
      destruct (data src !! i) as [r2|] eqn:H2; [|done].
      simpl in Hi. injection Hi as <-.
      rewrite length_zip_with, (Forall_lookup_1 _ _ _ _ Hro H1),
        (Forall_lookup_1 _ _ _ _ Hrs H2), <- Hs. lia.
  - intros r c. unfold getitem. simpl. rewrite lookup_zip_with.
    destruct (data out !! r) as [r1|] eqn:H1; simpl; [|done].
    destruct (data src !! r) as [r2|] eqn:H2; simpl.
    + rewrite lookup_zip_with. done.
    + exfalso. apply lookup_ge_None in H2. apply lookup_lt_Some in H1.
      rewrite Hs in Hlo. lia.
Qed.

Lemma wf_divide (a : ndarray float) (d : float) : wf a -> wf (divide a d).
Proof.
  intros [Hl Hr]. split; simpl; [by rewrite length_fmap|].
  apply Forall_fmap. eapply Forall_impl; [exact Hr|].
  intros row Hrow. simpl. by rewrite length_fmap.
Qed.

Lemma getitem_divide (a : ndarray float) (d : float) (r c : nat) :
  getitem (divide a d) r c = (fun x => PrimFloat.div x d) <$> getitem a r c.
Proof.
  unfold getitem, divide. simpl. rewrite list_lookup_fmap.
  destruct (data a !! r) as [row|]; simpl; [|done].
  by rewrite list_lookup_fmap.
Qed.

Lemma shape_astype_float (mat : pyarray) :
  shape (astype_float mat) = pyshape mat.
Proof. by destruct mat. Qed.

Lemma wf_astype_float (mat : pyarray) : pywf mat -> wf (astype_float mat).
Proof.
  destruct mat as [a|a]; simpl; [|done].
  intros [Hl Hr]. split; simpl; [by rewrite length_fmap|].
  apply Forall_fmap. eapply Forall_impl; [exact Hr|].
  intros row Hrow. simpl. by rewrite length_fmap.
Qed.

Lemma getitem_astype_float (mat : pyarray) (r c : nat) :
  getitem (astype_float mat) r c = to_float <$> pygetitem mat r c.
Proof.
  destruct mat as [a|a]; unfold pygetitem, astype_float, getitem; simpl.
  - rewrite list_lookup_fmap. destruct (data a !! r) as [row|]; simpl; [|done].
    rewrite list_lookup_fmap. by destruct (row !! c).
  - destruct (data a !! r) as [row|]; simpl; [|done]. by destruct (row !! c).
Qed.

(** ** Scaling up *)

Section ScaleUp.
Context {A : Type} (zero : A) (mat : ndarray A) (y x : Z).
Hypothesis Hwf : wf mat.
Hypothesis Hy : (0 < y)%Z.
Hypothesis Hx : (0 < x)%Z.

Let H := (shape mat).1.
Let W := (shape mat).2.
Let Y := Z.to_nat y.
Let X := Z.to_nat x.

(** After the offsets [ys] of the outer loop, and the offsets [xs] of the
    inner loop at [yo], the cells at those offsets hold their final value. *)
Let filled (ys : list nat) (yo : nat) (xs : list nat) (out : ndarray A) : Prop :=
  wf out /\ shape out = (H * Y, W * X) /\
  forall r c, r < H * Y -> c < W * X ->
    r mod Y ∈ ys \/ (r mod Y = yo /\ c mod X ∈ xs) ->
    getitem out r c = getitem mat (r / Y) (c / X).

Lemma scale_up_inner (ys : list nat) (yo : nat) (out : ndarray A) :
  yo < Y -> filled ys yo [] out ->
  exists out',
    for_ (range x) (fun xo out => setslice out yo Y xo X mat) out = Ok out' /\
    filled (ys ++ [yo]) yo [] out'.
Proof.
  intros Hyo Hout.
  destruct (for_invariant (fun xs out => filled ys yo xs out) (range x)
              (fun xo out => setslice out yo Y xo X mat) out Hout)
    as (out' & Hfor & Hwf' & Hs' & Hcells).
  - intros xs xo o (Hwfo & Hso & Hco) Hxo.
    apply elem_of_range in Hxo.
    destruct (setslice_block o mat H W Y X yo xo Hwfo Hwf Hso)
      as (o' & Hset & Hwfo' & Hso' & Hco');
      [by destruct (shape mat)|done|unfold X; lia|].
    exists o'. split; [done|]. split; [done|]. split; [done|].
    intros r c Hr Hc Hin. rewrite Hco' by done.
    destruct (Nat.eqb_spec (r mod Y) yo) as [Hry|Hry];
      destruct (Nat.eqb_spec (c mod X) xo) as [Hcx|Hcx]; simpl; try done;
      apply Hco; try done;
      (destruct Hin as [Hin|[Hin1 Hin2]]; [by left|];
       rewrite elem_of_app, list_elem_of_singleton in Hin2;
       destruct Hin2 as [Hin2|Hin2]; [by right|done]).
  - exists out'. split; [done|]. split; [done|]. split; [done|].
    intros r c Hr Hc Hin. apply Hcells; [done|done|].
    destruct Hin as [Hin|[_ Hin]]; [|by apply elem_of_nil in Hin].
    rewrite elem_of_app, list_elem_of_singleton in Hin.
    destruct Hin as [Hin|Hin]; [by left|]. right. split; [done|].
    apply elem_of_range.
    pose proof (Nat.mod_upper_bound c X ltac:(unfold X; lia)). unfold X in *. lia.
Qed.

Lemma scale_up_cells :
  exists out, scale_up zero mat y x = Ok out /\ wf out /\
    shape out = (H * Y, W * X) /\
    forall r c, r < H * Y -> c < W * X ->
      getitem out r c = getitem mat (r / Y) (c / X).
Proof.
  unfold scale_up. fold H W.
  replace (Z.to_nat (Z.of_nat H * y)) with (H * Y) by (unfold Y; lia).
  replace (Z.to_nat (Z.of_nat W * x)) with (W * X) by (unfold X; lia).
  fold Y X.
  destruct (for_invariant (fun ys out => filled ys 0 [] out) (range y)
              (fun yo out =>
                 for_ (range x) (fun xo out => setslice out yo Y xo X mat) out)
              (np_zeros zero (H * Y) (W * X)))
    as (out & Hfor & Hwf' & Hs' & Hcells).
  - split; [apply wf_np_zeros|]. split; [done|].
    intros r c _ _ [Hin|[_ Hin]]; by apply elem_of_nil in Hin.
  - intros ys yo o (Hwfo & Hso & Hco) Hyo. apply elem_of_range in Hyo.
    destruct (scale_up_inner ys yo o) as (o' & Hfor & Hwfo' & Hso' & Hco').
    + unfold Y. lia.
    + split; [done|]. split; [done|]. intros r c Hr Hc Hin.
      apply Hco; [done|done|]. left.
      destruct Hin as [Hin|[_ Hin]]; [done|by apply elem_of_nil in Hin].
    + exists o'. split; [done|]. split; [done|]. split; [done|].
      intros r c Hr Hc Hin. apply Hco'; [done|done|]. left.
      destruct Hin as [Hin|[_ Hin]]; [done|by apply elem_of_nil in Hin].
  - exists out. split; [done|]. split; [done|]. split; [done|].
    intros r c Hr Hc. apply Hcells; [done|done|]. left.
    apply elem_of_range.
    pose proof (Nat.mod_upper_bound r Y ltac:(unfold Y; lia)). unfold Y in *. lia.
Qed.
End ScaleUp.

(** ** Scaling down: the block sums *)

Lemma length_block_cells {A : Type} (a : ndarray A) (n m Y X r c : nat) :
  wf a -> shape a = (n * Y, m * X) -> r < n -> c < m ->
  length (block_cells a Y X r c) = Y * X.
Proof.
  intros Hwf Hs Hr Hc. unfold block_cells.
  assert (Hrow : forall yo, yo < Y ->
    length (seq 0 X ≫= fun xo =>
              option_list (getitem a (r * Y + yo) (c * X + xo))) = X).
  { intros yo Hyo.
    assert (Hin : forall l, (forall xo, xo ∈ l -> xo < X) ->
      length (l ≫= fun xo =>
                option_list (getitem a (r * Y + yo) (c * X + xo))) = length l).
    { induction l as [|xo l IH]; intros Hl; [done|].
      rewrite bind_cons, length_app, IH.
      - destruct (wf_getitem a (r * Y + yo) (c * X + xo) Hwf) as [v ->];
          [rewrite Hs; simpl; nia| |done].
        rewrite Hs. simpl. assert (xo < X) by (apply Hl; left). nia.
      - intros xo' Hxo'. apply Hl. by right. }
    rewrite Hin, length_seq; [done|]. intros xo Hxo.
    apply elem_of_seq in Hxo. lia. }
  assert (Hall : forall l, (forall yo, yo ∈ l -> yo < Y) ->
    length (l ≫= fun yo => seq 0 X ≫= fun xo =>
              option_list (getitem a (r * Y + yo) (c * X + xo)))
      = length l * X).
  { induction l as [|yo l IH]; intros Hl; [done|].
    rewrite bind_cons, length_app, IH, Hrow; simpl; [done| |].
    - apply Hl. left.
    - intros yo' Hyo'. apply Hl. by right. }
  rewrite Hall, length_seq; [done|]. intros yo Hyo.
  apply elem_of_seq in Hyo. lia.
Qed.

Section BlockMeans.
Context (mat : ndarray float) (y x : Z) (n m : nat).
Hypothesis Hwf : wf mat.
Hypothesis Hy : (0 < y)%Z.
Hypothesis Hx : (0 < x)%Z.

Let Y := Z.to_nat y.
Let X := Z.to_nat x.

Hypothesis Hshape : shape mat = (n * Y, m * X).

(** The cells at row offset [yo] of the block of [(r, c)], and the part of
    the block at the row offsets [ys]. *)
Let row_cells (r c yo : nat) (xs : list nat) : list float :=
  xo ← xs; option_list (getitem mat (r * Y + yo) (c * X + xo)).
Let rows_cells (r c : nat) (ys : list nat) : list float :=
  yo ← ys; row_cells r c yo (seq 0 X).

(** After the row offsets [ys], and the column offsets [xs] at [yo], every
    cell of [out] is the sum of the cells added so far. *)
Let summed (ys : list nat) (yo : nat) (xs : list nat) (out : ndarray float)
  : Prop :=
  wf out /\ shape out = (n, m) /\
  forall r c, r < n -> c < m ->
    getitem out r c =
      Some (foldl PrimFloat.add (fsum (rows_cells r c ys)) (row_cells r c yo xs)).

Lemma block_sums_inner (ys : list nat) (yo : nat) (out : ndarray float) :
  yo < Y -> summed ys yo [] out ->
  exists out',
    for_ (range x) (fun xo out => iadd out (getslice mat yo Y xo X)) out
      = Ok out' /\
    summed (ys ++ [yo]) yo [] out'.
Proof.
  intros Hyo Hout.
  destruct (for_invariant (fun xs out => summed ys yo xs out) (range x)
              (fun xo out => iadd out (getslice mat yo Y xo X)) out Hout)
    as (out' & Hfor & Hwf' & Hs' & Hcells).
  - intros xs xo o (Hwfo & Hso & Hco) Hxo.
    apply elem_of_range in Hxo. assert (Hxo' : xo < X) by (unfold X; lia).
    destruct (iadd_cells o (getslice mat yo Y xo X))
      as (o' & Hadd & Hwfo' & Hso' & Hco').
    + unfold getslice. simpl. rewrite Hso, Hshape. simpl.
      by rewrite !slice_len_mul.
    + done.
    + apply wf_getslice; [lia|lia|done].
    + exists o'. split; [done|]. split; [done|]. split; [congruence|].
      intros r c Hr Hc. rewrite Hco', (Hco r c Hr Hc). simpl.
      rewrite getitem_getslice by lia.
      destruct (wf_getitem mat (yo + r * Y) (xo + c * X) Hwf) as [v Hv];
        [rewrite Hshape; simpl; nia|rewrite Hshape; simpl; nia|].
      rewrite Hv. simpl. f_equal. unfold row_cells.
      rewrite bind_app, bind_singleton, foldl_app.
      rewrite (Nat.add_comm (r * Y) yo), (Nat.add_comm (c * X) xo), Hv.
      done.
  - exists out'. split; [done|]. split; [done|]. split; [done|].
    intros r c Hr Hc. rewrite (Hcells r c Hr Hc). f_equal.
    unfold fsum, rows_cells. rewrite bind_app, bind_singleton, foldl_app.
    done.
Qed.

Lemma block_means_cells :
  exists out, block_means mat y x = Ok out /\ wf out /\ shape out = (n, m) /\
    forall r c, r < n -> c < m ->
      getitem out r c
        = Some (PrimFloat.div (fsum (block_cells mat Y X r c))
                              (of_int (x * y))).
Proof.
  unfold block_means. rewrite Hshape. simpl.
  replace (Z.to_nat (Z.of_nat (n * Y) / y)) with n.
  2:{ unfold Y. rewrite Nat2Z.inj_mul, Z2Nat.id, Z.div_mul by lia. lia. }
  replace (Z.to_nat (Z.of_nat (m * X) / x)) with m.
  2:{ unfold X. rewrite Nat2Z.inj_mul, Z2Nat.id, Z.div_mul by lia. lia. }
  fold Y X.
  destruct (for_invariant (fun ys out => summed ys 0 [] out) (range y)
              (fun yo out =>
                 for_ (range x)
                   (fun xo out => iadd out (getslice mat yo Y xo X)) out)
              (np_zeros 0%float n m))
    as (out & Hfor & Hwf' & Hs' & Hcells).
  - split; [apply wf_np_zeros|]. split; [done|].
    intros r c Hr Hc. by apply getitem_np_zeros.
  - intros ys yo o Ho Hyo. apply elem_of_range in Hyo.
    destruct (block_sums_inner ys yo o) as (o' & Hfor & Ho').
    + unfold Y. lia.
    + exact Ho.
    + exists o'. split; [done|]. exact Ho'.
  - rewrite Hfor. simpl. eexists. split; [reflexivity|].
    split; [by apply wf_divide|]. split; [done|].
    intros r c Hr Hc. rewrite getitem_divide, (Hcells r c Hr Hc). done.
Qed.
End BlockMeans.

(** ** Scaling down by factors of the dimensions *)

Lemma pad_amounts_exact (shp : nat * nat) (y x : Z) :
  (Z.of_nat shp.1 mod y = 0)%Z -> (Z.of_nat shp.2 mod x = 0)%Z ->
  pad_amounts shp y x = (0%Z, 0%Z).
Proof.
  intros Hy Hx. unfold pad_amounts. rewrite Hy, Hx, !Z.sub_0_r, !Z.eqb_refl.
  done.
Qed.

Lemma scale_down_exact (mat : pyarray) (y x : Z) (strict : bool) :
  (Z.of_nat (pyshape mat).1 mod y = 0)%Z ->
  (Z.of_nat (pyshape mat).2 mod x = 0)%Z ->
  scale_down mat (- y) (- x) strict = block_means (astype_float mat) y x.
Proof.
  intros Hy Hx. unfold scale_down.
  replace (-1 * - y)%Z with y by lia. replace (-1 * - x)%Z with x by lia.
  rewrite Hy, Hx, pad_amounts_exact by done.
  destruct strict; simpl;
    by destruct (block_means (astype_float mat) y x).
Qed.

Lemma exact_multiple (h : nat) (y : Z) :
  (0 < y)%Z -> (Z.of_nat h mod y = 0)%Z ->
  h = h / Z.to_nat y * Z.to_nat y.
Proof.
  intros Hy Hm. pose proof (Nat.div_mod_eq h (Z.to_nat y)) as Hd.
  assert (h mod Z.to_nat y = 0); [|lia].
  apply Nat2Z.inj. rewrite Nat2Z.inj_mod, Z2Nat.id by lia. done.
Qed.

(** Scaling down by [(-y, -x)], for [y] and [x] that divide the dimensions:
    every output cell is the binary64 mean of its block. *)
Lemma scaleMatrix_down_exact (mat : pyarray) (y x : Z) (strict : bool) :
  pywf mat -> (0 < y)%Z -> (0 < x)%Z ->
  (Z.of_nat (pyshape mat).1 mod y = 0)%Z ->
  (Z.of_nat (pyshape mat).2 mod x = 0)%Z ->
  exists out,
    scaleMatrix mat (PyTuple [PyInt (- y); PyInt (- x)]) strict
      = Ok (FloatArray out) /\
    wf out /\
    shape out = ((pyshape mat).1 / Z.to_nat y, (pyshape mat).2 / Z.to_nat x) /\
    forall r c, r < (pyshape mat).1 / Z.to_nat y ->
                c < (pyshape mat).2 / Z.to_nat x ->
      length (block_cells (astype_float mat) (Z.to_nat y) (Z.to_nat x) r c)
        = Z.to_nat y * Z.to_nat x /\
      getitem out r c =
        Some (fmean (block_cells (astype_float mat) (Z.to_nat y) (Z.to_nat x) r c)).
Proof.
  intros Hwf Hy Hx Hmy Hmx. rewrite scaleMatrix_ints.
  assert ((- x =? 0)%Z = false) as -> by lia.
  assert ((0 <? - x)%Z = false) as -> by lia.
  assert ((- x <? 0)%Z = true) as -> by lia.
  assert ((- y <? 0)%Z = true) as -> by lia.
  simpl. rewrite scale_down_exact by done.
  set (n := (pyshape mat).1 / Z.to_nat y).
  set (m := (pyshape mat).2 / Z.to_nat x).
  assert (Hs : shape (astype_float mat) = (n * Z.to_nat y, m * Z.to_nat x)).
  { rewrite shape_astype_float. unfold n, m.
    rewrite <- !exact_multiple by done. by destruct (pyshape mat). }
  destruct (block_means_cells (astype_float mat) y x n m
              (wf_astype_float mat Hwf) Hy Hx Hs)
    as (out & Hbm & Hwfo & Hso & Hcells).
  exists out. rewrite Hbm. simpl. split; [done|]. split; [done|].
  split; [done|]. intros r c Hr Hc.
  pose proof (length_block_cells (astype_float mat) n m _ _ r c
                (wf_astype_float mat Hwf) Hs Hr Hc) as Hlen.
  split; [done|]. rewrite (Hcells r c Hr Hc). unfold fmean. rewrite Hlen.
  do 3 f_equal. lia.
Qed.

(** Scaling up by [(y, x)]: the shape is multiplied, the element type is
    kept, and every input cell fills its block. *)
Lemma scaleMatrix_up (mat : pyarray) (y x : Z) (strict : bool) :
  pywf mat -> (0 < y)%Z -> (0 < x)%Z ->
  exists out,
    scaleMatrix mat (PyTuple [PyInt y; PyInt x]) strict = Ok out /\
    pywf out /\
    pyshape out = ((pyshape mat).1 * Z.to_nat y, (pyshape mat).2 * Z.to_nat x) /\
    dtype_of out = dtype_of mat /\
    forall r c, r < (pyshape mat).1 * Z.to_nat y ->
                c < (pyshape mat).2 * Z.to_nat x ->
      pygetitem out r c = pygetitem mat (r / Z.to_nat y) (c / Z.to_nat x).
Proof.
  intros Hwf Hy Hx. rewrite scaleMatrix_ints.
  assert ((x =? 0)%Z = false) as -> by lia.
  assert ((0 <? x)%Z = true) as -> by lia.
  assert ((0 <? y)%Z = true) as -> by lia.
  simpl. destruct mat as [a|a]; simpl in *.
  - destruct (scale_up_cells 0%Z a y x Hwf Hy Hx) as (out & -> & Hw & Hs & Hc).
    exists (IntArray out). simpl. split; [done|]. split; [done|].
    split; [done|]. split; [done|]. intros r c Hr Hcc. by rewrite Hc.
  - destruct (scale_up_cells 0%float a y x Hwf Hy Hx)
      as (out & -> & Hw & Hs & Hc).
    exists (FloatArray out). simpl. split; [done|]. split; [done|].
    split; [done|]. split; [done|]. intros r c Hr Hcc. by rewrite Hc.
Qed.

Lemma pywf_getitem (mat : pyarray) (r c : nat) :
  pywf mat -> r < (pyshape mat).1 -> c < (pyshape mat).2 ->
  is_Some (pygetitem mat r c).
Proof.
  destruct mat as [a|a]; simpl; intros Hwf Hr Hc;
    destruct (wf_getitem a r c Hwf Hr Hc) as [v Hv]; rewrite Hv; by eexists.
Qed.

(** ** Round trip *)

Lemma bind_const_replicate {A B : Type} (l : list A) (f : A -> list B)
    (k : nat) (v : B) :
  (forall i, i ∈ l -> f i = replicate k v) ->
  l ≫= f = replicate (length l * k) v.
Proof.
  induction l as [|i l IH]; intros Hf; [done|].
  rewrite bind_cons, IH, (Hf i).
  - simpl. by rewrite replicate_add.
  - left.
  - intros j Hj. apply Hf. by right.
Qed.

Lemma div_block (r k o : nat) : o < k -> (r * k + o) / k = r.
Proof. intros Ho. symmetry. apply (Nat.div_unique _ k r o); lia. Qed.

Lemma pygetitem_lt (mat : pyarray) (r c : nat) (v : number) :
  pywf mat -> pygetitem mat r c = Some v ->
  r < (pyshape mat).1 /\ c < (pyshape mat).2.
Proof.
  assert (Hgen : forall (A : Type) (a : ndarray A) (w : A),
            wf a -> getitem a r c = Some w ->
            r < (shape a).1 /\ c < (shape a).2).
  { intros A a w [Hl Hr] Hg. unfold getitem in Hg.
    destruct (data a !! r) as [row|] eqn:Hrow; [|done]. simpl in Hg.
    pose proof (Forall_lookup_1 _ _ _ _ Hr Hrow) as Hlr. simpl in Hlr.
    apply lookup_lt_Some in Hrow, Hg. lia. }
  destruct mat as [a|a]; simpl; intros Hwf Hg.
  - destruct (getitem a r c) as [w|] eqn:Hw; [|done]. by eapply Hgen.
  - destruct (getitem a r c) as [w|] eqn:Hw; [|done]. by eapply Hgen.
Qed.

(** Two arrays of one shape with the same cells are the same array. *)
Lemma ndarray_ext {A : Type} (a b : ndarray A) :
  wf a -> wf b -> shape a = shape b ->
  (forall r c, r < (shape a).1 -> c < (shape a).2 ->
     getitem a r c = getitem b r c) ->
  a = b.
Proof.
  destruct a as [sa da], b as [sb db]. simpl.
  intros [Hla Hra] [Hlb Hrb] <- Hcells. simpl in *. f_equal.
  apply list_eq. intros r.
  destruct (decide (r < sa.1)) as [Hr|Hr].
  2:{ rewrite !lookup_ge_None_2 by lia. done. }
  destruct (lookup_lt_is_Some_2 da r ltac:(lia)) as [ra Ha].
  destruct (lookup_lt_is_Some_2 db r ltac:(lia)) as [rb Hb].
  rewrite Ha, Hb. f_equal.
  pose proof (Forall_lookup_1 _ _ _ _ Hra Ha) as Hlra.
  pose proof (Forall_lookup_1 _ _ _ _ Hrb Hb) as Hlrb. simpl in Hlra, Hlrb.
  apply list_eq. intros c.
  destruct (decide (c < sa.2)) as [Hc|Hc].
  2:{ rewrite !lookup_ge_None_2 by lia. done. }
  specialize (Hcells r c Hr Hc). unfold getitem in Hcells. simpl in Hcells.
  by rewrite Ha, Hb in Hcells.
Qed.

(** The blocks of a scaled-up matrix hold copies of one cell. *)
Lemma block_cells_of_copies (mat up : pyarray) (Y X r c : nat) (v : number) :
  pywf mat -> pygetitem mat r c = Some v ->
  (forall i j, i < (pyshape mat).1 * Y -> j < (pyshape mat).2 * X ->
     pygetitem up i j = pygetitem mat (i / Y) (j / X)) ->
  block_cells (astype_float up) Y X r c = replicate (Y * X) (to_float v).
Proof.
  intros Hwf Hv Hup. destruct (pygetitem_lt mat r c v Hwf Hv) as [Hr Hc].
  unfold block_cells.
  rewrite (bind_const_replicate (seq 0 Y) _ X (to_float v)).
  { by rewrite length_seq. }
  intros yo Hyo. apply elem_of_seq in Hyo.
  rewrite (bind_const_replicate (seq 0 X) _ 1 (to_float v)).
  { by rewrite length_seq, Nat.mul_1_r. }
  intros xo Hxo. apply elem_of_seq in Hxo.
  rewrite getitem_astype_float, Hup by nia.
  rewrite !div_block by lia. by rewrite Hv.
Qed.

(** ** Scaling up, scaling down and the round trip *)

(** C3: scaling a matrix of shape (H, W) up by positive ints (sy, sx) returns
    a matrix of shape (H*sy, W*sx) of the same element type in which the cell
    (r, c) is the input cell (r // sy, c // sx). *)
Theorem upscale_replicates_cells (mat : pyarray) (sy sx : Z) (strict : bool) :
  pywf mat -> (0 < sy)%Z -> (0 < sx)%Z ->
  exists out,
    scaleMatrix mat (PyTuple [PyInt sy; PyInt sx]) strict = Ok out /\
    pywf out /\
    pyshape out
      = ((pyshape mat).1 * Z.to_nat sy, (pyshape mat).2 * Z.to_nat sx) /\
    dtype_of out = dtype_of mat /\
    forall r c, r < (pyshape mat).1 * Z.to_nat sy ->
                c < (pyshape mat).2 * Z.to_nat sx ->
      exists v, pygetitem out r c = Some v /\
                pygetitem mat (r / Z.to_nat sy) (c / Z.to_nat sx) = Some v.
Proof.
  intros Hwf Hy Hx.
  destruct (scaleMatrix_up mat sy sx strict Hwf Hy Hx)
    as (out & Hrun & Hwfo & Hs & Hd & Hcells).
  exists out. split; [done|]. split; [done|]. split; [done|]. split; [done|].
  intros r c Hr Hc.
  destruct (pywf_getitem mat (r / Z.to_nat sy) (c / Z.to_nat sx) Hwf)
    as [v Hv]; [by apply div_lt_mul|by apply div_lt_mul|].
  exists v. by rewrite Hcells.
Qed.

Lemma upscale_replicates_cells_witness :
  exists out,
    scaleMatrix G22 (PyTuple [PyInt 2; PyInt 2]) true = Ok out /\
    pywf out /\
    pyshape out = ((pyshape G22).1 * Z.to_nat 2, (pyshape G22).2 * Z.to_nat 2) /\
    dtype_of out = dtype_of G22 /\
    forall r c, r < (pyshape G22).1 * Z.to_nat 2 ->
                c < (pyshape G22).2 * Z.to_nat 2 ->
      exists v, pygetitem out r c = Some v /\
                pygetitem G22 (r / Z.to_nat 2) (c / Z.to_nat 2) = Some v.
Proof.
  apply (upscale_replicates_cells G22 2 2 true); [solve_wf|lia|lia].
Defined.

(** C4, as the code has it: scaling a matrix of shape (H, W) down by
    (-sy, -sx), for sy dividing H and sx dividing W and for either value of
    [strict], returns a float64 matrix of shape (H/sy, W/sx) in which every
    cell is the mean of the sy*sx cells of its block as binary64 computes it:
    the cells, as float64, summed from 0.0 row by row with every sum rounded,
    and the sum divided by sy*sx, rounded. *)
Theorem downscale_exact_block_mean (mat : pyarray) (sy sx : Z) (strict : bool) :
  pywf mat -> (0 < sy)%Z -> (0 < sx)%Z ->
  (Z.of_nat (pyshape mat).1 mod sy = 0)%Z ->
  (Z.of_nat (pyshape mat).2 mod sx = 0)%Z ->
  exists out,
    scaleMatrix mat (PyTuple [PyInt (- sy); PyInt (- sx)]) strict
      = Ok (FloatArray out) /\
    dtype_of (FloatArray out) = float64 /\
    wf out /\
    shape out = ((pyshape mat).1 / Z.to_nat sy, (pyshape mat).2 / Z.to_nat sx) /\
    forall r c, r < (pyshape mat).1 / Z.to_nat sy ->
                c < (pyshape mat).2 / Z.to_nat sx ->
      length (block_cells (astype_float mat) (Z.to_nat sy) (Z.to_nat sx) r c)
        = Z.to_nat sy * Z.to_nat sx /\
      getitem out r c =
        Some (fmean (block_cells (astype_float mat)
                       (Z.to_nat sy) (Z.to_nat sx) r c)).
Proof.
  intros Hwf Hy Hx Hmy Hmx.
  destruct (scaleMatrix_down_exact mat sy sx strict Hwf Hy Hx Hmy Hmx)
    as (out & Hrun & Hwfo & Hs & Hcells).
  exists out. done.
Qed.

Lemma downscale_exact_block_mean_witness :
  exists out,
    scaleMatrix G44 (PyTuple [PyInt (- 2); PyInt (- 2)]) true
      = Ok (FloatArray out) /\
    dtype_of (FloatArray out) = float64 /\
    wf out /\
    shape out = ((pyshape G44).1 / Z.to_nat 2, (pyshape G44).2 / Z.to_nat 2) /\
    forall r c, r < (pyshape G44).1 / Z.to_nat 2 ->
                c < (pyshape G44).2 / Z.to_nat 2 ->
      length (block_cells (astype_float G44) (Z.to_nat 2) (Z.to_nat 2) r c)
        = Z.to_nat 2 * Z.to_nat 2 /\
      getitem out r c =
        Some (fmean (block_cells (astype_float G44)
                       (Z.to_nat 2) (Z.to_nat 2) r c)).
Proof.
  apply (downscale_exact_block_mean G44 2 2 true);
    [solve_wf|lia|lia|reflexivity|reflexivity].
Defined.

(** C4, as stated, fails: the 3x1 matrix holding 0.1 three times, scaled down
    by (-3, -1), returns 0.10000000000000002; the exact arithmetic mean of its
    one block is 0.1, a binary64 value, and the cell returned is not it. *)
Lemma downscale_mean_not_exact :
  exists out,
    scaleMatrix G31 (PyTuple [PyInt (- 3); PyInt (- 1)]) true
      = Ok (FloatArray out) /\
    shape out = (1, 1) /\
    block_cells (astype_float G31) 3 1 0 0 = [tenth; tenth; tenth] /\
    is_exact_mean tenth (block_cells (astype_float G31) 3 1 0 0) = true /\
    getitem out 0 0 = Some tenth_succ /\
    is_exact_mean tenth_succ (block_cells (astype_float G31) 3 1 0 0) = false.
Proof.
  eexists. split; [vm_compute; reflexivity|].
  split; [reflexivity|]. split; [reflexivity|].
  split; [vm_compute; reflexivity|]. split; [reflexivity|].
  vm_compute. reflexivity.
Qed.

(** On the 4x4 matrix of the docstring, scaled by (-2, -2), no sum is rounded:
    the four cells returned are the exact means of their blocks. *)
Example docstring_means_exact :
  is_exact_mean 1.5 (block_cells (astype_float G44) 2 2 0 0) = true /\
  is_exact_mean 2 (block_cells (astype_float G44) 2 2 0 1) = true /\
  is_exact_mean 5.25 (block_cells (astype_float G44) 2 2 1 0) = true /\
  is_exact_mean 6.75 (block_cells (astype_float G44) 2 2 1 1) = true.
Proof. vm_compute. repeat split. Qed.

(** C8: when the magnitudes divide the dimensions, the strict and the
    non-strict down-scaling return the same matrix: both pads are zero and
    the result is the matrix of block means of the input itself, neither
    padded nor corrected. *)
Theorem strict_irrelevant_when_divisible (mat : pyarray) (Y X : Z) :
  pywf mat -> (0 < Y)%Z -> (0 < X)%Z ->
  (Z.of_nat (pyshape mat).1 mod Y = 0)%Z ->
  (Z.of_nat (pyshape mat).2 mod X = 0)%Z ->
  scaleMatrix mat (PyTuple [PyInt (- Y); PyInt (- X)]) true
    = scaleMatrix mat (PyTuple [PyInt (- Y); PyInt (- X)]) false /\
  pad_amounts (pyshape mat) Y X = (0%Z, 0%Z) /\
  exists out,
    scaleMatrix mat (PyTuple [PyInt (- Y); PyInt (- X)]) false
      = Ok (FloatArray out) /\
    block_means (astype_float mat) Y X = Ok out.
Proof.
  intros Hwf Hy Hx Hmy Hmx.
  destruct (scaleMatrix_down_exact mat Y X false Hwf Hy Hx Hmy Hmx)
    as (out & Hrun & _).
  split; [|split; [by apply pad_amounts_exact|]].
  - rewrite !scaleMatrix_ints.
    by rewrite (scale_down_exact mat Y X true), (scale_down_exact mat Y X false).
  - exists out. split; [done|].
    rewrite scaleMatrix_ints in Hrun.
    assert ((- X =? 0)%Z = false) as Hx0 by lia.
    assert ((0 <? - X)%Z = false) as Hx1 by lia.
    assert ((- X <? 0)%Z = true) as Hx2 by lia.
    assert ((- Y <? 0)%Z = true) as Hy2 by lia.
    rewrite Hx0, Hx1, Hx2, Hy2 in Hrun. simpl in Hrun.
    rewrite scale_down_exact in Hrun by done.
    destruct (block_means (astype_float mat) Y X) as [o|e]; simpl in Hrun;
      congruence.
Qed.

Lemma strict_irrelevant_when_divisible_witness :
  scaleMatrix G44 (PyTuple [PyInt (- 2); PyInt (- 2)]) true
    = scaleMatrix G44 (PyTuple [PyInt (- 2); PyInt (- 2)]) false /\
  pad_amounts (pyshape G44) 2 2 = (0%Z, 0%Z) /\
  exists out,
    scaleMatrix G44 (PyTuple [PyInt (- 2); PyInt (- 2)]) false
      = Ok (FloatArray out) /\
    block_means (astype_float G44) 2 2 = Ok out.
Proof.
  apply (strict_irrelevant_when_divisible G44 2 2);
    [solve_wf|lia|lia|reflexivity|reflexivity].
Defined.

(** C5, as the code has it: scaling up by (sy, sx) and then strictly down by
    (-sy, -sx) succeeds and returns a float64 matrix of the shape of the
    input whose cell (r, c) is the binary64 mean of sy*sx copies of the input
    cell (r, c); the result is the input, as float64, whenever each of these
    means equals its cell. *)
Theorem roundtrip_mean_of_copies (mat : pyarray) (sy sx : Z) (strict : bool) :
  pywf mat -> (0 < sy)%Z -> (0 < sx)%Z ->
  exists up out,
    scaleMatrix mat (PyTuple [PyInt sy; PyInt sx]) strict = Ok up /\
    scaleMatrix up (PyTuple [PyInt (- sy); PyInt (- sx)]) true
      = Ok (FloatArray out) /\
    wf out /\ shape out = pyshape mat /\
    (forall r c v, pygetitem mat r c = Some v ->
       getitem out r c =
         Some (fmean (replicate (Z.to_nat sy * Z.to_nat sx) (to_float v)))) /\
    ((forall r c v, pygetitem mat r c = Some v ->
        fmean (replicate (Z.to_nat sy * Z.to_nat sx) (to_float v)) = to_float v) ->
     out = astype_float mat).
Proof.
  intros Hwf Hy Hx.
  destruct (scaleMatrix_up mat sy sx strict Hwf Hy Hx)
    as (up & Hup & Hwfu & Hsu & _ & Hcu).
  assert (Hmy : (Z.of_nat (pyshape up).1 mod sy = 0)%Z).
  { rewrite Hsu. simpl. rewrite Nat2Z.inj_mul, Z2Nat.id by lia.
    apply Z_mod_mult. }
  assert (Hmx : (Z.of_nat (pyshape up).2 mod sx = 0)%Z).
  { rewrite Hsu. simpl. rewrite Nat2Z.inj_mul, Z2Nat.id by lia.
    apply Z_mod_mult. }
  destruct (scaleMatrix_down_exact up sy sx true Hwfu Hy Hx Hmy Hmx)
    as (out & Hdown & Hwfo & Hso & Hco).
  rewrite Hsu in Hso, Hco. simpl in Hso, Hco.
  rewrite !Nat.div_mul in Hso, Hco by lia.
  assert (Hcells : forall r c v, pygetitem mat r c = Some v ->
    getitem out r c =
      Some (fmean (replicate (Z.to_nat sy * Z.to_nat sx) (to_float v)))).
  { intros r c v Hv. destruct (pygetitem_lt mat r c v Hwf Hv) as [Hr Hc].
    destruct (Hco r c Hr Hc) as [_ ->].
    by rewrite (block_cells_of_copies mat up _ _ r c v Hwf Hv Hcu). }
  exists up, out. split; [done|]. split; [done|]. split; [done|].
  split; [by destruct (pyshape mat)|]. split; [done|].
  intros Hexact. apply ndarray_ext; [done|by apply wf_astype_float| |].
  - rewrite shape_astype_float, Hso. by destruct (pyshape mat).
  - intros r c Hr Hc. rewrite Hso in Hr, Hc. simpl in Hr, Hc.
    destruct (pywf_getitem mat r c Hwf Hr Hc) as [v Hv].
    rewrite (Hcells r c v Hv), getitem_astype_float, Hv. simpl.
    by rewrite (Hexact r c v Hv).
Qed.

Lemma roundtrip_mean_of_copies_witness :
  exists up out,
    scaleMatrix G22 (PyTuple [PyInt 2; PyInt 2]) true = Ok up /\
    scaleMatrix up (PyTuple [PyInt (- 2); PyInt (- 2)]) true
      = Ok (FloatArray out) /\
    wf out /\ shape out = pyshape G22 /\
    (forall r c v, pygetitem G22 r c = Some v ->
       getitem out r c =
         Some (fmean (replicate (Z.to_nat 2 * Z.to_nat 2) (to_float v)))) /\
    ((forall r c v, pygetitem G22 r c = Some v ->
        fmean (replicate (Z.to_nat 2 * Z.to_nat 2) (to_float v)) = to_float v) ->
     out = astype_float G22).
Proof.
  apply (roundtrip_mean_of_copies G22 2 2 true); [solve_wf|lia|lia].
Defined.

(** The round trip of the docstring's 2x2 matrix is lossless. *)
Example roundtrip_G22 :
  (up ← scaleMatrix G22 (PyTuple [PyInt 2; PyInt 2]) true;
   scaleMatrix up (PyTuple [PyInt (- 2); PyInt (- 2)]) true)
  = Ok (FloatArray (astype_float G22)).
Proof. vm_compute. reflexivity. Qed.

(** C5, as stated, fails: the 1x1 matrix holding 0.1, scaled up by (3, 1) and
    strictly down by (-3, -1), comes back as 0.10000000000000002. *)
Lemma roundtrip_not_lossless :
  exists up out,
    scaleMatrix G11 (PyTuple [PyInt 3; PyInt 1]) true = Ok up /\
    scaleMatrix up (PyTuple [PyInt (- 3); PyInt (- 1)]) true
      = Ok (FloatArray out) /\
    pygetitem G11 0 0 = Some (NFloat tenth) /\
    getitem out 0 0 = Some tenth_succ /\
    PrimFloat.eqb tenth_succ tenth = false /\
    FloatArray out <> G11.
Proof.
  eexists. eexists. split; [vm_compute; reflexivity|].
  split; [vm_compute; reflexivity|]. split; [reflexivity|].
  split; [reflexivity|]. split; [reflexivity|].
  intros Heq.
  apply (f_equal (fun m => match pygetitem m 0 0 with
                           | Some (NFloat f) => PrimFloat.eqb f tenth
                           | _ => false
                           end)) in Heq.
  vm_compute in Heq. discriminate Heq.
Qed.

(** ** The edge correction *)

(** C1, on the 3x4 matrix G34 scaled by (-2, -2) with [strict=false]: the
    block of the output cell (1, 0) covers the real cells 9 and 10 and two
    padded zeros; the mean of the real cells is 9.5 and the cell returned
    is 4.75. *)
Theorem padding_visible_3x4 :
  exists out,
    scaleMatrix G34 (PyTuple [PyInt (- 2); PyInt (- 2)]) false
      = Ok (FloatArray out) /\
    data out = [[3.5; 11]; [4.75; 11.5]]%float /\
    block_cells (astype_float G34) 2 2 1 0 = [9; 10]%float /\
    fmean (block_cells (astype_float G34) 2 2 1 0) = 9.5%float /\
    getitem out 1 0 = Some 4.75%float /\
    getitem out 1 0 <> Some (fmean (block_cells (astype_float G34) 2 2 1 0)).
Proof.
  eexists. split; [vm_compute; reflexivity|].
  split; [reflexivity|]. split; [reflexivity|]. split; [reflexivity|].
  split; [reflexivity|]. intros Heq.
  apply (f_equal (fun o => match o with
                           | Some f => PrimFloat.eqb f 9.5
                           | None => false
                           end)) in Heq.
  vm_compute in Heq. discriminate Heq.
Qed.

(** C2, on G34 scaled by (-2, -2) with [strict=false] (yPad = 1, xPad = 0) and
    on the 4x3 matrix G43 (yPad = 0, xPad = 1): the code multiplies the last
    column above the corner, not the last row, by Y/(Y - yPad), the last row
    left of the corner, not the last column, by X/(X - xPad), and leaves the
    corner alone when only xPad is nonzero. *)
Theorem edge_correction_swaps_axes :
  (exists padded means out,
     pad_amounts (pyshape G34) 2 2 = (1%Z, 0%Z) /\
     pad_matrix (astype_float G34) 1 0 = Ok padded /\
     block_means padded 2 2 = Ok means /\
     data means = [[3.5; 5.5]; [4.75; 5.75]]%float /\
     correct_edges means 2 2 1 0 = Ok out /\
     scaleMatrix G34 (PyTuple [PyInt (- 2); PyInt (- 2)]) false
       = Ok (FloatArray out) /\
     data out = [[3.5; 11]; [4.75; 11.5]]%float /\
     data (correct_edges_spec means 2 2 1 0)
       = [[3.5; 5.5]; [9.5; 11.5]]%float) /\
  (exists padded means out,
     pad_amounts (pyshape G43) 2 2 = (0%Z, 1%Z) /\
     pad_matrix (astype_float G43) 0 1 = Ok padded /\
     block_means padded 2 2 = Ok means /\
     data means = [[3; 2.25]; [9; 5.25]]%float /\
     correct_edges means 2 2 0 1 = Ok out /\
     scaleMatrix G43 (PyTuple [PyInt (- 2); PyInt (- 2)]) false
       = Ok (FloatArray out) /\
     data out = [[3; 2.25]; [18; 5.25]]%float /\
     data (correct_edges_spec means 2 2 0 1)
       = [[3; 4.5]; [9; 10.5]]%float).
Proof.
  split.
  - eexists. eexists. eexists. split; [reflexivity|].
    split; [vm_compute; reflexivity|]. split; [vm_compute; reflexivity|].
    split; [reflexivity|]. split; [vm_compute; reflexivity|].
    split; [vm_compute; reflexivity|]. split; reflexivity.
  - eexists. eexists. eexists. split; [reflexivity|].
    split; [vm_compute; reflexivity|]. split; [vm_compute; reflexivity|].
    split; [reflexivity|]. split; [vm_compute; reflexivity|].
    split; [vm_compute; reflexivity|]. split; reflexivity.
Qed.

(** ** The examples of the docstring *)

Example docstring_scale_up :
  scaleMatrix G22 (PyInt 2) true
  = Ok (int_matrix [[1; 1; 2; 2]; [1; 1; 2; 2]; [3; 3; 4; 4]; [3; 3; 4; 4]]%Z).
Proof. vm_compute. reflexivity. Qed.

Example docstring_scale_down :
  scaleMatrix G44 (PyInt (- 2)) true
  = Ok (float_matrix [[1.5; 2]; [5.25; 6.75]]%float).
Proof. vm_compute. reflexivity. Qed.

(** The top-left cell, 23/9, is printed 2.55 in the docstring. *)
Example docstring_scale_down_padded :
  scaleMatrix G44 (PyInt (- 3)) false
  = Ok (float_matrix [[PrimFloat.div 23 9; 3]; [7; 9]]%float).
Proof. vm_compute. reflexivity. Qed.

(** ** Padding *)

Lemma concatenate0_zeros_cells (mat : ndarray float) (k : nat) :
  wf mat ->
  exists m', concatenate0 mat (np_zeros 0%float k (shape mat).2) = Ok m' /\
    wf m' /\ shape m' = ((shape mat).1 + k, (shape mat).2) /\
    forall r c, r < (shape mat).1 + k -> c < (shape mat).2 ->
      getitem m' r c =
        if decide (r < (shape mat).1) then getitem mat r c else Some 0%float.
Proof.
  intros [Hl Hr]. unfold concatenate0. simpl. rewrite decide_True by done.
  eexists. split; [reflexivity|]. split; [|split; [done|]].
  - split; simpl.
    + by rewrite length_app, length_replicate, Hl.
    + apply Forall_app. split; [done|].
      apply Forall_replicate, length_replicate.
  - intros r c Hrr Hc. unfold getitem. simpl.
    destruct (decide (r < (shape mat).1)) as [Hlt|Hge].
    + by rewrite lookup_app_l by lia.
    + rewrite lookup_app_r by lia.
      rewrite lookup_replicate_2 by lia. simpl.
      by rewrite lookup_replicate_2.
Qed.

Lemma concatenate1_zeros_cells (mat : ndarray float) (k : nat) :
  wf mat ->
  exists m', concatenate1 mat (np_zeros 0%float (shape mat).1 k) = Ok m' /\
    wf m' /\ shape m' = ((shape mat).1, (shape mat).2 + k) /\
    forall r c, r < (shape mat).1 -> c < (shape mat).2 + k ->
      getitem m' r c =
        if decide (c < (shape mat).2) then getitem mat r c else Some 0%float.
Proof.
  intros [Hl Hr]. unfold concatenate1. simpl. rewrite decide_True by done.
  eexists. split; [reflexivity|]. split; [|split; [done|]].
  - split; simpl.
    + rewrite length_zip_with, length_replicate, Hl. lia.
    + apply Forall_lookup. intros i row Hi. rewrite lookup_zip_with in Hi.
      destruct (data mat !! i) as [r1|] eqn:H1; [|done]. simpl in Hi.
      destruct (replicate (shape mat).1 (replicate k 0%float) !! i)
        as [r2|] eqn:H2; [|done].
      simpl in Hi. injection Hi as <-.
      apply lookup_replicate_1 in H2 as [-> _].
      rewrite length_app, length_replicate.
      by rewrite (Forall_lookup_1 _ _ _ _ Hr H1).
  - intros r c Hrr Hc. unfold getitem. simpl. rewrite lookup_zip_with.
    destruct (lookup_lt_is_Some_2 (data mat) r ltac:(lia)) as [row Hrow].
    pose proof (Forall_lookup_1 _ _ _ _ Hr Hrow) as Hlr. simpl in Hlr.
    rewrite Hrow. simpl. rewrite lookup_replicate_2 by lia. simpl.
    destruct (decide (c < (shape mat).2)) as [Hlt|Hge].
    + by rewrite lookup_app_l by lia.
    + rewrite lookup_app_r by lia. by rewrite lookup_replicate_2 by lia.
Qed.

(** Lines 133-134: the padded matrix holds the cells of [mat] and, beyond
    them, zeros. *)
Lemma pad_matrix_cells (mat : ndarray float) (yPad xPad : Z) :
  wf mat -> (0 <= yPad)%Z -> (0 <= xPad)%Z ->
  exists padded, pad_matrix mat yPad xPad = Ok padded /\ wf padded /\
    shape padded
      = ((shape mat).1 + Z.to_nat yPad, (shape mat).2 + Z.to_nat xPad) /\
    forall r c, r < (shape mat).1 + Z.to_nat yPad ->
                c < (shape mat).2 + Z.to_nat xPad ->
      getitem padded r c =
        if decide (r < (shape mat).1 /\ c < (shape mat).2)
        then getitem mat r c else Some 0%float.
Proof.
  intros Hwf Hy Hx. unfold pad_matrix.
  assert (H1 : exists m1,
    (if (0 <? yPad)%Z
     then concatenate0 mat (np_zeros 0%float (Z.to_nat yPad) (shape mat).2)
     else Ok mat) = Ok m1 /\ wf m1 /\
    shape m1 = ((shape mat).1 + Z.to_nat yPad, (shape mat).2) /\
    forall r c, r < (shape mat).1 + Z.to_nat yPad -> c < (shape mat).2 ->
      getitem m1 r c =
        if decide (r < (shape mat).1) then getitem mat r c else Some 0%float).
  { destruct (Z.ltb_spec 0 yPad) as [Hpos|Hnp].
    - by apply concatenate0_zeros_cells.
    - exists mat. replace (Z.to_nat yPad) with 0 by lia.
      rewrite Nat.add_0_r. split; [done|]. split; [done|].
      split; [by destruct (shape mat)|]. intros r c Hr Hc.
      by rewrite decide_True. }
  destruct H1 as (m1 & -> & Hwf1 & Hs1 & Hc1). simpl.
  assert (H2 : exists m2,
    (if (0 <? xPad)%Z
     then concatenate1 m1 (np_zeros 0%float (shape m1).1 (Z.to_nat xPad))
     else Ok m1) = Ok m2 /\ wf m2 /\
    shape m2 = ((shape m1).1, (shape m1).2 + Z.to_nat xPad) /\
    forall r c, r < (shape m1).1 -> c < (shape m1).2 + Z.to_nat xPad ->
      getitem m2 r c =
        if decide (c < (shape m1).2) then getitem m1 r c else Some 0%float).
  { destruct (Z.ltb_spec 0 xPad) as [Hpos|Hnp].
    - by apply concatenate1_zeros_cells.
    - exists m1. replace (Z.to_nat xPad) with 0 by lia.
      rewrite Nat.add_0_r. split; [done|]. split; [done|].
      split; [by destruct (shape m1)|]. intros r c Hr Hc.
      by rewrite decide_True. }
  destruct H2 as (m2 & -> & Hwf2 & Hs2 & Hc2).
  rewrite Hs1 in Hs2, Hc2. simpl in Hs2, Hc2.
  exists m2. split; [done|]. split; [done|]. split; [done|].
  intros r c Hr Hc. rewrite Hc2 by done.
  destruct (decide (c < (shape mat).2)) as [Hlt|Hge].
  - rewrite Hc1 by done.
    destruct (decide (r < (shape mat).1)) as [Hrl|Hrg].
    + by rewrite decide_True.
    + rewrite decide_False; [done|]. intros [? ?]. lia.
  - rewrite decide_False; [done|]. intros [? ?]. lia.
Qed.

Lemma pad_amounts_range (shp : nat * nat) (y x : Z) :
  (0 < y)%Z -> (0 < x)%Z ->
  (0 <= (pad_amounts shp y x).1 < y)%Z /\
  (0 <= (pad_amounts shp y x).2 < x)%Z /\
  ((Z.of_nat shp.1 + (pad_amounts shp y x).1) mod y = 0)%Z /\
  ((Z.of_nat shp.2 + (pad_amounts shp y x).2) mod x = 0)%Z.
Proof.
  intros Hy Hx.
  assert (Hone : forall (h : nat) (s : Z), (0 < s)%Z ->
    let p := (s - Z.of_nat h mod s)%Z in
    let p' := (if (p =? s)%Z then 0 else p)%Z in
    (0 <= p' < s)%Z /\ ((Z.of_nat h + p') mod s = 0)%Z).
  { intros h s Hs p p'. subst p p'.
    pose proof (Z.mod_pos_bound (Z.of_nat h) s Hs) as Hb.
    pose proof (Z.div_mod (Z.of_nat h) s ltac:(lia)) as Hd.
    destruct (Z.eqb_spec (s - Z.of_nat h mod s) s) as [He|Hne].
    - split; [lia|]. rewrite Z.add_0_r. lia.
    - split; [lia|].
      replace (Z.of_nat h + (s - Z.of_nat h mod s))%Z
        with ((Z.of_nat h / s + 1) * s)%Z by lia.
      apply Z_mod_mult. }
  destruct (Hone shp.1 y Hy) as [Hy1 Hy2].
  destruct (Hone shp.2 x Hx) as [Hx1 Hx2].
  unfold pad_amounts. simpl. done.
Qed.

(** ** The three edge updates *)

Lemma imul_lastcol_above_cells (out : ndarray float) (f : float) :
  (shape out).2 <> 0 -> wf out ->
  exists out', imul_lastcol_above out f = Ok out' /\ wf out' /\
    shape out' = shape out /\
    forall r c, getitem out' r c =
      (fun v => if decide (r < (shape out).1 - 1 /\ c = (shape out).2 - 1)
                then PrimFloat.mul v f else v) <$> getitem out r c.
Proof.
  intros Hw [Hl Hr]. unfold imul_lastcol_above.
  destruct (shape out) as [h w] eqn:Hs. simpl in *.
  rewrite decide_False by done.
  eexists. split; [reflexivity|]. split; [|split; [done|]].
  - split; simpl; [by rewrite length_imap|].
    apply Forall_lookup. intros i row' Hi. rewrite list_lookup_imap in Hi.
    destruct (data out !! i) as [row|] eqn:Hrow; [|done].
    simpl in Hi. injection Hi as <-.
    pose proof (Forall_lookup_1 _ _ _ _ Hr Hrow) as Hlr. simpl in Hlr.
    destruct (decide (i < h - 1)); [by rewrite length_alter|done].
  - intros r c. unfold getitem. simpl. rewrite list_lookup_imap.
    destruct (data out !! r) as [row|]; simpl; [|done].
    destruct (decide (r < h - 1)) as [Hrl|Hrg].
    + destruct (decide (c = w - 1)) as [->|Hc].
      * rewrite list_lookup_alter_eq. destruct (row !! (w - 1)); simpl; [|done].
        by rewrite decide_True.
      * rewrite list_lookup_alter_ne by done.
        destruct (row !! c); simpl; [|done].
        rewrite decide_False; [done|]. intros [_ ?]. done.
    + destruct (row !! c); simpl; [|done].
      rewrite decide_False; [done|]. intros [? _]. done.
Qed.

Lemma imul_lastrow_left_cells (out : ndarray float) (f : float) :
  (shape out).1 <> 0 -> wf out ->
  exists out', imul_lastrow_left out f = Ok out' /\ wf out' /\
    shape out' = shape out /\
    forall r c, getitem out' r c =
      (fun v => if decide (r = (shape out).1 - 1 /\ c < (shape out).2 - 1)
                then PrimFloat.mul v f else v) <$> getitem out r c.
Proof.
  intros Hh [Hl Hr]. unfold imul_lastrow_left.
  destruct (shape out) as [h w] eqn:Hs. simpl in *.
  rewrite decide_False by done.
  eexists. split; [reflexivity|]. split; [|split; [done|]].
  - split; simpl; [by rewrite length_alter|].
    apply Forall_lookup. intros i row' Hi.
    destruct (decide (i = h - 1)) as [->|Hne].
    + rewrite list_lookup_alter_eq in Hi.
      destruct (data out !! (h - 1)) as [row|] eqn:Hrow; [|done].
      simpl in Hi. injection Hi as <-. rewrite length_imap.
      by apply (Forall_lookup_1 _ _ _ _ Hr Hrow).
    + rewrite list_lookup_alter_ne in Hi by done.
      by apply (Forall_lookup_1 _ _ _ _ Hr Hi).
  - intros r c. unfold getitem. simpl.
    destruct (decide (r = h - 1)) as [->|Hne].
    + rewrite list_lookup_alter_eq.
      destruct (data out !! (h - 1)) as [row|]; simpl; [|done].
      rewrite list_lookup_imap. destruct (row !! c); simpl; [|done].
      destruct (decide (c < w - 1)).
      * by rewrite decide_True.
      * rewrite decide_False; [done|]. intros [_ ?]. done.
    + rewrite list_lookup_alter_ne by done.
      destruct (data out !! r) as [row|]; simpl; [|done].
      destruct (row !! c); simpl; [|done].
      rewrite decide_False; [done|]. intros [? _]. done.
Qed.

Lemma imul_corner_cells (out : ndarray float) (f : float) :
  (shape out).1 <> 0 -> (shape out).2 <> 0 -> wf out ->
  exists out', imul_corner out f = Ok out' /\ wf out' /\
    shape out' = shape out /\
    forall r c, getitem out' r c =
      (fun v => if decide (r = (shape out).1 - 1 /\ c = (shape out).2 - 1)
                then PrimFloat.mul v f else v) <$> getitem out r c.
Proof.
  intros Hh Hw [Hl Hr]. unfold imul_corner.
  destruct (shape out) as [h w] eqn:Hs. simpl in *.
  rewrite decide_False by (intros [?|?]; done).
  eexists. split; [reflexivity|]. split; [|split; [done|]].
  - split; simpl; [by rewrite length_alter|].
    apply Forall_lookup. intros i row' Hi.
    destruct (decide (i = h - 1)) as [->|Hne].
    + rewrite list_lookup_alter_eq in Hi.
      destruct (data out !! (h - 1)) as [row|] eqn:Hrow; [|done].
      simpl in Hi. injection Hi as <-. rewrite length_alter.
      by apply (Forall_lookup_1 _ _ _ _ Hr Hrow).
    + rewrite list_lookup_alter_ne in Hi by done.
      by apply (Forall_lookup_1 _ _ _ _ Hr Hi).
  - intros r c. unfold getitem. simpl.
    destruct (decide (r = h - 1)) as [->|Hne].
    + rewrite list_lookup_alter_eq.
      destruct (data out !! (h - 1)) as [row|]; simpl; [|done].
      destruct (decide (c = w - 1)) as [->|Hc].
      * rewrite list_lookup_alter_eq. destruct (row !! (w - 1)); simpl; [|done].
        by rewrite decide_True.
      * rewrite list_lookup_alter_ne by done.
        destruct (row !! c); simpl; [|done].
        rewrite decide_False; [done|]. intros [_ ?]. done.
    + rewrite list_lookup_alter_ne by done.
      destruct (data out !! r) as [row|]; simpl; [|done].
      destruct (row !! c); simpl; [|done].
      rewrite decide_False; [done|]. intros [? _]. done.
Qed.

(** Lines 143-145 on a matrix with no empty axis. *)
Lemma correct_edges_cells (out : ndarray float) (y x yPad xPad : Z) :
  (shape out).1 <> 0 -> (shape out).2 <> 0 -> wf out ->
  exists out', correct_edges out y x yPad xPad = Ok out' /\ wf out' /\
    shape out' = shape out /\
    forall r c, getitem out' r c =
      corrected_cell (shape out).1 (shape out).2 y x yPad xPad r c
        <$> getitem out r c.
Proof.
  intros Hh Hw Hwf. unfold correct_edges.
  assert (H1 : exists o1,
    (if (0 <? yPad)%Z
     then imul_lastcol_above out (truediv y (y - yPad)) else Ok out) = Ok o1 /\
    wf o1 /\ shape o1 = shape out /\
    forall r c, getitem o1 r c =
      (fun v => if decide ((0 < yPad)%Z /\ r < (shape out).1 - 1 /\
                           c = (shape out).2 - 1)
                then PrimFloat.mul v (truediv y (y - yPad)) else v)
        <$> getitem out r c).
  { destruct (Z.ltb_spec 0 yPad) as [Hp|Hp].
    - destruct (imul_lastcol_above_cells out (truediv y (y - yPad)) Hw Hwf)
        as (o1 & Ho1 & Hwf1 & Hs1 & Hc1).
      exists o1. split; [done|]. split; [done|]. split; [done|].
      intros r c. rewrite Hc1. destruct (getitem out r c); simpl; [|done].
      f_equal. repeat case_decide; try done; exfalso; tauto.
    - exists out. split; [done|]. split; [done|]. split; [done|].
      intros r c. destruct (getitem out r c); simpl; [|done].
      rewrite decide_False; [done|]. intros [? _]. lia. }
  destruct H1 as (o1 & -> & Hwf1 & Hs1 & Hc1). simpl.
  assert (H2 : exists o2,
    (if (0 <? xPad)%Z
     then imul_lastrow_left o1 (truediv x (x - xPad)) else Ok o1) = Ok o2 /\
    wf o2 /\ shape o2 = shape out /\
    forall r c, getitem o2 r c =
      (fun v => if decide ((0 < xPad)%Z /\ r = (shape out).1 - 1 /\
                           c < (shape out).2 - 1)
                then PrimFloat.mul v (truediv x (x - xPad)) else v)
        <$> getitem o1 r c).
  { destruct (Z.ltb_spec 0 xPad) as [Hp|Hp].
    - destruct (imul_lastrow_left_cells o1 (truediv x (x - xPad)))
        as (o2 & Ho2 & Hwf2 & Hs2 & Hc2); [by rewrite Hs1|done|].
      exists o2. split; [done|]. split; [done|]. split; [congruence|].
      intros r c. rewrite Hc2, Hs1. destruct (getitem o1 r c); simpl; [|done].
      f_equal. repeat case_decide; try done; exfalso; tauto.
    - exists o1. split; [done|]. split; [done|]. split; [done|].
      intros r c. destruct (getitem o1 r c); simpl; [|done].
      rewrite decide_False; [done|]. intros [? _]. lia. }
  destruct H2 as (o2 & -> & Hwf2 & Hs2 & Hc2). simpl.
  set (fc := PrimFloat.div (truediv (y * x) (y - yPad)) (of_int (x - xPad))).
  assert (H3 : exists o3,
    (if (0 <? yPad)%Z then imul_corner o2 fc else Ok o2) = Ok o3 /\
    wf o3 /\ shape o3 = shape out /\
    forall r c, getitem o3 r c =
      (fun v => if decide ((0 < yPad)%Z /\ r = (shape out).1 - 1 /\
                           c = (shape out).2 - 1)
                then PrimFloat.mul v fc else v)
        <$> getitem o2 r c).
  { destruct (Z.ltb_spec 0 yPad) as [Hp|Hp].
    - destruct (imul_corner_cells o2 fc)
        as (o3 & Ho3 & Hwf3 & Hs3 & Hc3); [by rewrite Hs2|by rewrite Hs2|done|].
      exists o3. split; [done|]. split; [done|]. split; [congruence|].
      intros r c. rewrite Hc3, Hs2. destruct (getitem o2 r c); simpl; [|done].
      f_equal. repeat case_decide; try done; exfalso; tauto.
    - exists o2. split; [done|]. split; [done|]. split; [done|].
      intros r c. destruct (getitem o2 r c); simpl; [|done].
      rewrite decide_False; [done|]. intros [? _]. lia. }
  destruct H3 as (o3 & -> & Hwf3 & Hs3 & Hc3).
  exists o3. split; [done|]. split; [done|]. split; [done|].
  intros r c. rewrite Hc3, Hc2, Hc1.
  destruct (getitem out r c); simpl; done.
Qed.

(** ** Scaling down without [strict] *)

Lemma bind_ext_in {A B : Type} (f g : A -> list B) (l : list A) :
  (forall i, i ∈ l -> f i = g i) -> l ≫= f = l ≫= g.
Proof.
  induction l as [|i l IH]; intros Hfg; [done|].
  rewrite !bind_cons, (Hfg i), IH; [done| |left].
  intros j Hj. apply Hfg. by right.
Qed.

Lemma ceil_div (h p : nat) (y : Z) :
  (0 < y)%Z -> p < Z.to_nat y -> (Z.of_nat (h + p) mod y = 0)%Z ->
  (h + p) / Z.to_nat y = (h + (Z.to_nat y - 1)) / Z.to_nat y.
Proof.
  intros Hy Hp Hm. pose proof (exact_multiple (h + p) y Hy Hm) as He.
  apply (Nat.div_unique _ (Z.to_nat y) _ (Z.to_nat y - 1 - p)); lia.
Qed.

Section Padded.
Context (mat : pyarray) (y x : Z).
Hypothesis Hwf : pywf mat.
Hypothesis Hy : (0 < y)%Z.
Hypothesis Hx : (0 < x)%Z.

Let H := (pyshape mat).1.
Let W := (pyshape mat).2.
Let Y := Z.to_nat y.
Let X := Z.to_nat x.
Let yPad := (pad_amounts (pyshape mat) y x).1.
Let xPad := (pad_amounts (pyshape mat) y x).2.
Let h := (H + (Y - 1)) / Y.
Let w := (W + (X - 1)) / X.

(** The non-strict path up to the edge correction: the matrix is padded with
    zeros to multiples of the scales, and the block means of the padded matrix
    are handed to the correction. *)
Lemma scale_down_padded :
  exists padded means,
    pad_matrix (astype_float mat) yPad xPad = Ok padded /\
    shape padded = (h * Y, w * X) /\
    H <= h * Y < H + Y /\ W <= w * X < W + X /\
    (forall r c, r < h * Y -> c < w * X ->
       getitem padded r c =
         if decide (r < H /\ c < W)
         then getitem (astype_float mat) r c else Some 0%float) /\
    block_means padded y x = Ok means /\ wf means /\ shape means = (h, w) /\
    (forall r c, r < h -> c < w ->
       length (block_cells padded Y X r c) = Y * X /\
       getitem means r c = Some (fmean (block_cells padded Y X r c))) /\
    scale_down mat (- y) (- x) false = correct_edges means y x yPad xPad.
Proof.
  destruct (pad_amounts_range (pyshape mat) y x Hy Hx)
    as (Hyr & Hxr & Hym & Hxm). fold yPad xPad H W in Hyr, Hxr, Hym, Hxm.
  destruct (pad_matrix_cells (astype_float mat) yPad xPad
              (wf_astype_float mat Hwf) ltac:(lia) ltac:(lia))
    as (padded & Hpad & Hwfp & Hsp & Hcp).
  rewrite shape_astype_float in Hsp, Hcp. fold H W in Hsp, Hcp.
  assert (Hh : H + Z.to_nat yPad = h * Y).
  { unfold h, Y. rewrite <- (ceil_div H (Z.to_nat yPad) y); [|lia|lia|].
    - apply exact_multiple; [lia|]. by rewrite Nat2Z.inj_add, Z2Nat.id by lia.
    - by rewrite Nat2Z.inj_add, Z2Nat.id by lia. }
  assert (Hw : W + Z.to_nat xPad = w * X).
  { unfold w, X. rewrite <- (ceil_div W (Z.to_nat xPad) x); [|lia|lia|].
    - apply exact_multiple; [lia|]. by rewrite Nat2Z.inj_add, Z2Nat.id by lia.
    - by rewrite Nat2Z.inj_add, Z2Nat.id by lia. }
  rewrite Hh, Hw in Hsp, Hcp.
  destruct (block_means_cells padded y x h w Hwfp Hy Hx Hsp)
    as (means & Hbm & Hwfm & Hsm & Hcm).
  exists padded, means. split; [done|]. split; [done|].
  split; [unfold Y in *; lia|]. split; [unfold X in *; lia|].
  split; [done|]. split; [done|]. split; [done|]. split; [done|]. split.
  - intros r c Hr Hc.
    pose proof (length_block_cells padded h w Y X r c Hwfp Hsp Hr Hc) as Hlen.
    split; [done|]. rewrite (Hcm r c Hr Hc). unfold fmean. rewrite Hlen.
    do 3 f_equal. unfold Y, X. lia.
  - unfold scale_down.
    replace (-1 * - y)%Z with y by lia. replace (-1 * - x)%Z with x by lia.
    clear Hyr Hxr Hym Hxm Hh Hw. unfold yPad, xPad in *.
    destruct (pad_amounts (pyshape mat) y x) as [yp xp].
    simpl in Hpad |- *. rewrite Hpad. simpl. rewrite Hbm. done.
Qed.

(** Every block that lies above the last row and left of the last column of
    blocks holds cells of the matrix only. *)
Lemma block_cells_inside (padded : ndarray float) (r c : nat) :
  (forall i j, i < h * Y -> j < w * X ->
     getitem padded i j =
       if decide (i < H /\ j < W)
       then getitem (astype_float mat) i j else Some 0%float) ->
  h * Y < H + Y -> w * X < W + X ->
  r < h - 1 -> c < w - 1 ->
  block_cells padded Y X r c = block_cells (astype_float mat) Y X r c.
Proof.
  intros Hcp Hhb Hwb Hr Hc. unfold block_cells.
  apply bind_ext_in. intros yo Hyo. apply elem_of_seq in Hyo.
  apply bind_ext_in. intros xo Hxo. apply elem_of_seq in Hxo.
  rewrite Hcp by nia. rewrite decide_True; [done|]. nia.
Qed.
End Padded.

Lemma ceil_pos (h k : nat) : 1 <= h -> 1 <= k -> (h + (k - 1)) / k <> 0.
Proof.
  intros Hh Hk Hz. apply Nat.div_small_iff in Hz; lia.
Qed.

Lemma scaleMatrix_down_ints (mat : pyarray) (y x : Z) (strict : bool) :
  (0 < y)%Z -> (0 < x)%Z ->
  scaleMatrix mat (PyTuple [PyInt (- y); PyInt (- x)]) strict
    = (out ← scale_down mat (- y) (- x) strict; Ok (FloatArray out)).
Proof.
  intros Hy Hx. rewrite scaleMatrix_ints.
  assert ((- x =? 0)%Z = false) as -> by lia.
  assert ((0 <? - x)%Z = false) as -> by lia.
  assert ((- x <? 0)%Z = true) as -> by lia.
  assert ((- y <? 0)%Z = true) as -> by lia.
  done.
Qed.

(** The whole non-strict path on a matrix with no empty axis. *)
Lemma scaleMatrix_down_padded (mat : pyarray) (y x : Z) :
  pywf mat -> 1 <= (pyshape mat).1 -> 1 <= (pyshape mat).2 ->
  (0 < y)%Z -> (0 < x)%Z ->
  exists padded out,
    pad_matrix (astype_float mat) (pad_amounts (pyshape mat) y x).1
                                  (pad_amounts (pyshape mat) y x).2
      = Ok padded /\
    shape padded
      = (((pyshape mat).1 + (Z.to_nat y - 1)) / Z.to_nat y * Z.to_nat y,
         ((pyshape mat).2 + (Z.to_nat x - 1)) / Z.to_nat x * Z.to_nat x) /\
    (pyshape mat).1
      <= ((pyshape mat).1 + (Z.to_nat y - 1)) / Z.to_nat y * Z.to_nat y
      < (pyshape mat).1 + Z.to_nat y /\
    (pyshape mat).2
      <= ((pyshape mat).2 + (Z.to_nat x - 1)) / Z.to_nat x * Z.to_nat x
      < (pyshape mat).2 + Z.to_nat x /\
    (forall r c,
       r < ((pyshape mat).1 + (Z.to_nat y - 1)) / Z.to_nat y * Z.to_nat y ->
       c < ((pyshape mat).2 + (Z.to_nat x - 1)) / Z.to_nat x * Z.to_nat x ->
       getitem padded r c =
         if decide (r < (pyshape mat).1 /\ c < (pyshape mat).2)
         then getitem (astype_float mat) r c else Some 0%float) /\
    scaleMatrix mat (PyTuple [PyInt (- y); PyInt (- x)]) false
      = Ok (FloatArray out) /\
    wf out /\
    shape out = (((pyshape mat).1 + (Z.to_nat y - 1)) / Z.to_nat y,
                 ((pyshape mat).2 + (Z.to_nat x - 1)) / Z.to_nat x) /\
    forall r c,
      r < ((pyshape mat).1 + (Z.to_nat y - 1)) / Z.to_nat y ->
      c < ((pyshape mat).2 + (Z.to_nat x - 1)) / Z.to_nat x ->
      length (block_cells padded (Z.to_nat y) (Z.to_nat x) r c)
        = Z.to_nat y * Z.to_nat x /\
      getitem out r c =
        Some (corrected_cell
                (((pyshape mat).1 + (Z.to_nat y - 1)) / Z.to_nat y)
                (((pyshape mat).2 + (Z.to_nat x - 1)) / Z.to_nat x)
                y x (pad_amounts (pyshape mat) y x).1
                (pad_amounts (pyshape mat) y x).2 r c
                (fmean (block_cells padded (Z.to_nat y) (Z.to_nat x) r c))).
Proof.
  intros Hwf HH HW Hy Hx.
  destruct (scale_down_padded mat y x Hwf Hy Hx)
    as (padded & means & Hpad & Hsp & Hhb & Hwb & Hcp & Hbm & Hwfm & Hsm
        & Hcm & Hsd).
  destruct (correct_edges_cells means y x
              (pad_amounts (pyshape mat) y x).1
              (pad_amounts (pyshape mat) y x).2)
    as (out & Hce & Hwfo & Hso & Hco).
  { rewrite Hsm. simpl. apply ceil_pos; lia. }
  { rewrite Hsm. simpl. apply ceil_pos; lia. }
  { done. }
  exists padded, out. split; [done|]. split; [done|]. split; [done|].
  split; [done|]. split; [done|]. split.
  { rewrite scaleMatrix_down_ints, Hsd, Hce by done. done. }
  split; [done|]. split; [congruence|]. intros r c Hr Hc.
  destruct (Hcm r c Hr Hc) as [Hlen Hmean]. split; [done|].
  rewrite Hco, Hmean, Hsm. done.
Qed.

(** Without [strict], scaling a matrix with no empty axis down by
    [(-y, -x)] never raises: it returns a float64 matrix with
    [ceil(H/y)] rows and [ceil(W/x)] columns. *)
Theorem nonstrict_downscale_total (mat : pyarray) (y x : Z) :
  pywf mat -> 1 <= (pyshape mat).1 -> 1 <= (pyshape mat).2 ->
  (0 < y)%Z -> (0 < x)%Z ->
  exists out,
    scaleMatrix mat (PyTuple [PyInt (- y); PyInt (- x)]) false
      = Ok (FloatArray out) /\
    wf out /\
    shape out = (((pyshape mat).1 + (Z.to_nat y - 1)) / Z.to_nat y,
                 ((pyshape mat).2 + (Z.to_nat x - 1)) / Z.to_nat x).
Proof.
  intros Hwf HH HW Hy Hx.
  destruct (scaleMatrix_down_padded mat y x Hwf HH HW Hy Hx)
    as (padded & out & _ & _ & _ & _ & _ & Hrun & Hwfo & Hso & _).
  by exists out.
Qed.

Lemma nonstrict_downscale_total_witness :
  exists out,
    scaleMatrix G34 (PyTuple [PyInt (- 2); PyInt (- 3)]) false
      = Ok (FloatArray out) /\
    wf out /\
    shape out = (((pyshape G34).1 + (Z.to_nat 2 - 1)) / Z.to_nat 2,
                 ((pyshape G34).2 + (Z.to_nat 3 - 1)) / Z.to_nat 3).
Proof.
  apply (nonstrict_downscale_total G34 2 3);
    [solve_wf|simpl; lia|simpl; lia|lia|lia].
Defined.

(** Without [strict], every output cell above the last row and left of the
    last column is the binary64 mean of the [y*x] cells of its block, all of
    them cells of the matrix: padding and correction do not reach it. *)
Theorem nonstrict_inner_cells_are_block_means (mat : pyarray) (y x : Z) :
  pywf mat -> 1 <= (pyshape mat).1 -> 1 <= (pyshape mat).2 ->
  (0 < y)%Z -> (0 < x)%Z ->
  exists out,
    scaleMatrix mat (PyTuple [PyInt (- y); PyInt (- x)]) false
      = Ok (FloatArray out) /\
    forall r c,
      r < ((pyshape mat).1 + (Z.to_nat y - 1)) / Z.to_nat y - 1 ->
      c < ((pyshape mat).2 + (Z.to_nat x - 1)) / Z.to_nat x - 1 ->
      length (block_cells (astype_float mat) (Z.to_nat y) (Z.to_nat x) r c)
        = Z.to_nat y * Z.to_nat x /\
      getitem out r c =
        Some (fmean (block_cells (astype_float mat)
                       (Z.to_nat y) (Z.to_nat x) r c)).
Proof.
  intros Hwf HH HW Hy Hx.
  destruct (scaleMatrix_down_padded mat y x Hwf HH HW Hy Hx)
    as (padded & out & _ & _ & Hhb & Hwb & Hcp & Hrun & _ & _ & Hco).
  exists out. split; [done|]. intros r c Hr Hc.
  destruct (Hco r c ltac:(lia) ltac:(lia)) as [Hlen Hcell].
  rewrite (block_cells_inside mat y x Hy Hx padded r c Hcp) in Hlen, Hcell
    by (done || lia).
  split; [done|]. rewrite Hcell. f_equal. unfold corrected_cell.
  generalize dependent (((pyshape mat).1 + (Z.to_nat y - 1)) / Z.to_nat y).
  generalize dependent (((pyshape mat).2 + (Z.to_nat x - 1)) / Z.to_nat x).
  intros w Hwb Hc h Hhb _ _ Hr.
  rewrite !decide_False; [done|intros (_ & ? & ?); lia..].
Qed.

Lemma nonstrict_inner_cells_are_block_means_witness :
  exists out,
    scaleMatrix G44 (PyTuple [PyInt (- 3); PyInt (- 3)]) false
      = Ok (FloatArray out) /\
    forall r c,
      r < ((pyshape G44).1 + (Z.to_nat 3 - 1)) / Z.to_nat 3 - 1 ->
      c < ((pyshape G44).2 + (Z.to_nat 3 - 1)) / Z.to_nat 3 - 1 ->
      length (block_cells (astype_float G44) (Z.to_nat 3) (Z.to_nat 3) r c)
        = Z.to_nat 3 * Z.to_nat 3 /\
      getitem out r c =
        Some (fmean (block_cells (astype_float G44)
                       (Z.to_nat 3) (Z.to_nat 3) r c)).
Proof.
  apply (nonstrict_inner_cells_are_block_means G44 3 3);
    [solve_wf|simpl; lia|simpl; lia|lia|lia].
Defined.

(** Without [strict], on a matrix of shape (H, W) with no empty axis: the
    matrix is padded with zeros below and to the right up to the next
    multiples of [y] and [x], and the output cell [(r, c)] is the binary64
    mean of its [y*x] block of the padded matrix, multiplied as lines 143-145
    do at its position ([corrected_cell]). *)
Theorem nonstrict_cells_by_position (mat : pyarray) (y x : Z) :
  pywf mat -> 1 <= (pyshape mat).1 -> 1 <= (pyshape mat).2 ->
  (0 < y)%Z -> (0 < x)%Z ->
  exists padded out,
    pad_matrix (astype_float mat) (pad_amounts (pyshape mat) y x).1
                                  (pad_amounts (pyshape mat) y x).2
      = Ok padded /\
    shape padded
      = (((pyshape mat).1 + (Z.to_nat y - 1)) / Z.to_nat y * Z.to_nat y,
         ((pyshape mat).2 + (Z.to_nat x - 1)) / Z.to_nat x * Z.to_nat x) /\
    (forall r c,
       r < ((pyshape mat).1 + (Z.to_nat y - 1)) / Z.to_nat y * Z.to_nat y ->
       c < ((pyshape mat).2 + (Z.to_nat x - 1)) / Z.to_nat x * Z.to_nat x ->
       getitem padded r c =
         if decide (r < (pyshape mat).1 /\ c < (pyshape mat).2)
         then getitem (astype_float mat) r c else Some 0%float) /\
    scaleMatrix mat (PyTuple [PyInt (- y); PyInt (- x)]) false
      = Ok (FloatArray out) /\
    forall r c,
      r < ((pyshape mat).1 + (Z.to_nat y - 1)) / Z.to_nat y ->
      c < ((pyshape mat).2 + (Z.to_nat x - 1)) / Z.to_nat x ->
      length (block_cells padded (Z.to_nat y) (Z.to_nat x) r c)
        = Z.to_nat y * Z.to_nat x /\
      getitem out r c =
        Some (corrected_cell
                (((pyshape mat).1 + (Z.to_nat y - 1)) / Z.to_nat y)
                (((pyshape mat).2 + (Z.to_nat x - 1)) / Z.to_nat x)
                y x (pad_amounts (pyshape mat) y x).1
                (pad_amounts (pyshape mat) y x).2 r c
                (fmean (block_cells padded (Z.to_nat y) (Z.to_nat x) r c))).
Proof.
  intros Hwf HH HW Hy Hx.
  destruct (scaleMatrix_down_padded mat y x Hwf HH HW Hy Hx)
    as (padded & out & Hpad & Hsp & _ & _ & Hcp & Hrun & _ & _ & Hco).
  by exists padded, out.
Qed.

Lemma nonstrict_cells_by_position_witness :
  exists padded out,
    pad_matrix (astype_float G34) (pad_amounts (pyshape G34) 2 3).1
                                  (pad_amounts (pyshape G34) 2 3).2
      = Ok padded /\
    shape padded
      = (((pyshape G34).1 + (Z.to_nat 2 - 1)) / Z.to_nat 2 * Z.to_nat 2,
         ((pyshape G34).2 + (Z.to_nat 3 - 1)) / Z.to_nat 3 * Z.to_nat 3) /\
    (forall r c,
       r < ((pyshape G34).1 + (Z.to_nat 2 - 1)) / Z.to_nat 2 * Z.to_nat 2 ->
       c < ((pyshape G34).2 + (Z.to_nat 3 - 1)) / Z.to_nat 3 * Z.to_nat 3 ->
       getitem padded r c =
         if decide (r < (pyshape G34).1 /\ c < (pyshape G34).2)
         then getitem (astype_float G34) r c else Some 0%float) /\
    scaleMatrix G34 (PyTuple [PyInt (- 2); PyInt (- 3)]) false
      = Ok (FloatArray out) /\
    forall r c,
      r < ((pyshape G34).1 + (Z.to_nat 2 - 1)) / Z.to_nat 2 ->
      c < ((pyshape G34).2 + (Z.to_nat 3 - 1)) / Z.to_nat 3 ->
      length (block_cells padded (Z.to_nat 2) (Z.to_nat 3) r c)
        = Z.to_nat 2 * Z.to_nat 3 /\
      getitem out r c =
        Some (corrected_cell
                (((pyshape G34).1 + (Z.to_nat 2 - 1)) / Z.to_nat 2)
                (((pyshape G34).2 + (Z.to_nat 3 - 1)) / Z.to_nat 3)
                2 3 (pad_amounts (pyshape G34) 2 3).1
                (pad_amounts (pyshape G34) 2 3).2 r c
                (fmean (block_cells padded (Z.to_nat 2) (Z.to_nat 3) r c))).
Proof.
  apply (nonstrict_cells_by_position G34 2 3);
    [solve_wf|simpl; lia|simpl; lia|lia|lia].
Defined.

(** Lines 126-130: each pad amount is non-negative and smaller than its
    scale, it brings the dimension to a multiple of the scale (the smallest
    one not below the dimension), and it is zero exactly when the scale
    already divides the dimension. *)
Theorem pad_amounts_smallest_multiple (shp : nat * nat) (y x : Z) :
  (0 < y)%Z -> (0 < x)%Z ->
  (0 <= (pad_amounts shp y x).1 < y)%Z /\
  (0 <= (pad_amounts shp y x).2 < x)%Z /\
  ((Z.of_nat shp.1 + (pad_amounts shp y x).1) mod y = 0)%Z /\
  ((Z.of_nat shp.2 + (pad_amounts shp y x).2) mod x = 0)%Z /\
  ((pad_amounts shp y x).1 = 0%Z <-> (Z.of_nat shp.1 mod y = 0)%Z) /\
  ((pad_amounts shp y x).2 = 0%Z <-> (Z.of_nat shp.2 mod x = 0)%Z).
Proof.
  intros Hy Hx.
  destruct (pad_amounts_range shp y x Hy Hx) as (Hyr & Hxr & Hym & Hxm).
  split; [done|]. split; [done|]. split; [done|]. split; [done|].
  unfold pad_amounts. simpl.
  pose proof (Z.mod_pos_bound (Z.of_nat shp.1) y Hy).
  pose proof (Z.mod_pos_bound (Z.of_nat shp.2) x Hx).
  split.
  - destruct (Z.eqb_spec (y - Z.of_nat shp.1 mod y) y); lia.
  - destruct (Z.eqb_spec (x - Z.of_nat shp.2 mod x) x); lia.
Qed.

Lemma pad_amounts_smallest_multiple_witness :
  (0 <= (pad_amounts (4%nat, 6%nat) 3 3).1 < 3)%Z /\
  (0 <= (pad_amounts (4%nat, 6%nat) 3 3).2 < 3)%Z /\
  ((Z.of_nat 4 + (pad_amounts (4%nat, 6%nat) 3 3).1) mod 3 = 0)%Z /\
  ((Z.of_nat 6 + (pad_amounts (4%nat, 6%nat) 3 3).2) mod 3 = 0)%Z /\
  ((pad_amounts (4%nat, 6%nat) 3 3).1 = 0%Z <-> (Z.of_nat 4 mod 3 = 0)%Z) /\
  ((pad_amounts (4%nat, 6%nat) 3 3).2 = 0%Z <-> (Z.of_nat 6 mod 3 = 0)%Z).
Proof.
  apply (pad_amounts_smallest_multiple (4%nat, 6%nat) 3 3); lia.
Defined.

(** On a matrix with an empty axis the non-strict path fails when the other
    axis needs padding: the integer index [-1] of lines 143-144 meets an axis
    of the block means that has size zero, and numpy raises an IndexError. *)
Theorem nonstrict_downscale_empty_axis (mat : pyarray) (y x : Z) :
  pywf mat -> (0 < y)%Z -> (0 < x)%Z ->
  ((pyshape mat).2 = 0 /\ (Z.of_nat (pyshape mat).1 mod y <> 0)%Z) \/
  ((pyshape mat).1 = 0 /\ (Z.of_nat (pyshape mat).2 mod x <> 0)%Z) ->
  exists msg,
    scaleMatrix mat (PyTuple [PyInt (- y); PyInt (- x)]) false
      = Raise (IndexError msg).
Proof.
  intros Hwf Hy Hx Hcase. eexists.
  destruct (scale_down_padded mat y x Hwf Hy Hx)
    as (padded & means & _ & _ & _ & _ & _ & _ & _ & Hsm & _ & Hsd).
  destruct (pad_amounts_range (pyshape mat) y x Hy Hx)
    as (Hyr & Hxr & Hym & Hxm).
  rewrite scaleMatrix_down_ints, Hsd by done. unfold correct_edges.
  set (yp := (pad_amounts (pyshape mat) y x).1) in *.
  set (xp := (pad_amounts (pyshape mat) y x).2) in *.
  clearbody yp xp.
  destruct Hcase as [[HW Hnd]|[HH Hnd]].
  - assert (Hpos : (0 < yp)%Z).
    { destruct (decide (yp = 0%Z)) as [Hz|Hnz]; [|lia].
      rewrite Hz, Z.add_0_r in Hym. done. }
    apply Z.ltb_lt in Hpos. rewrite Hpos. unfold imul_lastcol_above.
    rewrite Hsm, HW. simpl. rewrite Nat.div_small by lia. done.
  - assert (Hz : yp = 0%Z).
    { rewrite HH in Hym. change (Z.of_nat 0) with 0%Z in Hym.
      rewrite Z.add_0_l, Z.mod_small in Hym; lia. }
    assert (Hpos : (0 < xp)%Z).
    { destruct (decide (xp = 0%Z)) as [Hz'|Hnz]; [|lia].
      rewrite Hz', Z.add_0_r in Hxm. done. }
    apply Z.ltb_lt in Hpos. rewrite Hz, Hpos. simpl.
    unfold imul_lastrow_left.
    rewrite Hsm, HH. simpl. rewrite Nat.div_small by lia. done.
Qed.

Lemma nonstrict_downscale_empty_axis_witness :
  exists msg,
    scaleMatrix (int_matrix [[]]) (PyTuple [PyInt (- 2); PyInt (- 2)]) false
      = Raise (IndexError msg).
Proof.
  apply (nonstrict_downscale_empty_axis (int_matrix [[]]) 2 2);
    [solve_wf|lia|lia|].
  left. split; [reflexivity|]. vm_compute. discriminate.
Defined.

(** ** Scaling up: identity and composition *)

Lemma pyarray_ext (a b : pyarray) :
  pywf a -> pywf b -> pyshape a = pyshape b -> dtype_of a = dtype_of b ->
  (forall r c, r < (pyshape a).1 -> c < (pyshape a).2 ->
     pygetitem a r c = pygetitem b r c) ->
  a = b.
Proof.
  destruct a as [a|a], b as [b|b]; simpl; intros Hwa Hwb Hs Hd Hc;
    try discriminate Hd; f_equal; apply ndarray_ext; try done;
    intros r c Hr Hcc; specialize (Hc r c Hr Hcc).
  - destruct (getitem a r c), (getitem b r c); simpl in Hc; congruence.
  - destruct (getitem a r c) as [u|], (getitem b r c) as [v|]; simpl in Hc;
      try done.
    f_equal.
    apply (f_equal (fun o => match o with
                             | Some (NFloat f) => f
                             | _ => u
                             end)) in Hc.
    exact Hc.
Qed.

(** Scaling by (1, 1), or by the single int 1, returns a matrix equal to the
    one given. *)
Theorem scale_by_one_is_identity (mat : pyarray) (strict : bool) :
  pywf mat ->
  scaleMatrix mat (PyTuple [PyInt 1; PyInt 1]) strict = Ok mat /\
  scaleMatrix mat (PyInt 1) strict = Ok mat.
Proof.
  intros Hwf.
  assert (Hpair : scaleMatrix mat (PyTuple [PyInt 1; PyInt 1]) strict = Ok mat).
  { destruct (scaleMatrix_up mat 1 1 strict Hwf ltac:(lia) ltac:(lia))
      as (out & Hrun & Hwfo & Hso & Hd & Hc).
    rewrite Hrun. f_equal. change (Z.to_nat 1) with 1 in *.
    rewrite !Nat.mul_1_r in Hso, Hc.
    apply pyarray_ext; [done|done|by rewrite Hso; destruct (pyshape mat)|done|].
    intros r c Hr Hcc. rewrite Hso in Hr, Hcc. simpl in Hr, Hcc.
    rewrite Hc by done. by rewrite !Nat.div_1_r. }
  split; [done|]. exact Hpair.
Qed.

Lemma scale_by_one_is_identity_witness :
  scaleMatrix G34 (PyTuple [PyInt 1; PyInt 1]) true = Ok G34 /\
  scaleMatrix G34 (PyInt 1) true = Ok G34.
Proof. apply (scale_by_one_is_identity G34 true). solve_wf. Defined.

(** Scaling up by (a, b) and then by (c, d) gives the matrix that scaling up
    by (a*c, b*d) gives. *)
Theorem upscale_composes (mat : pyarray) (a b c d : Z) (strict : bool) :
  pywf mat -> (0 < a)%Z -> (0 < b)%Z -> (0 < c)%Z -> (0 < d)%Z ->
  exists m1 m2,
    scaleMatrix mat (PyTuple [PyInt a; PyInt b]) strict = Ok m1 /\
    scaleMatrix m1 (PyTuple [PyInt c; PyInt d]) strict = Ok m2 /\
    scaleMatrix mat (PyTuple [PyInt (a * c); PyInt (b * d)]) strict = Ok m2.
Proof.
  intros Hwf Ha Hb Hc Hd.
  destruct (scaleMatrix_up mat a b strict Hwf Ha Hb)
    as (m1 & Hr1 & Hw1 & Hs1 & Hd1 & Hc1).
  destruct (scaleMatrix_up m1 c d strict Hw1 Hc Hd)
    as (m2 & Hr2 & Hw2 & Hs2 & Hd2 & Hc2).
  destruct (scaleMatrix_up mat (a * c) (b * d) strict Hwf
              ltac:(lia) ltac:(lia))
    as (m3 & Hr3 & Hw3 & Hs3 & Hd3 & Hc3).
  exists m1, m2. split; [done|]. split; [done|]. rewrite Hr3. f_equal.
  rewrite Hs1 in Hs2, Hc2. simpl in Hs2, Hc2.
  rewrite !Z2Nat.inj_mul in Hs3, Hc3 by lia.
  apply pyarray_ext; [done|done| |congruence|].
  - rewrite Hs2, Hs3. f_equal; lia.
  - intros r cc Hr Hcc. rewrite Hs3 in Hr, Hcc. simpl in Hr, Hcc.
    rewrite Hc3 by done. rewrite Hc2 by lia.
    rewrite Hc1.
    + rewrite !Nat.Div0.div_div.
      by rewrite (Nat.mul_comm (Z.to_nat c)), (Nat.mul_comm (Z.to_nat d)).
    + apply div_lt_mul. lia.
    + apply div_lt_mul. lia.
Qed.

Lemma upscale_composes_witness :
  exists m1 m2,
    scaleMatrix G22 (PyTuple [PyInt 2; PyInt 3]) true = Ok m1 /\
    scaleMatrix m1 (PyTuple [PyInt 3; PyInt 2]) true = Ok m2 /\
    scaleMatrix G22 (PyTuple [PyInt (2 * 3); PyInt (3 * 2)]) true = Ok m2.
Proof.
  apply (upscale_composes G22 2 3 3 2 true); [solve_wf|lia..].
Defined.

(** ** The forms of [scale] *)

(** A [scale] that is neither an int nor a pair of ints (a float, a tuple of
    another length, a pair with a component that is not an int) raises the
    error of line 107, whatever the matrix. *)
Theorem malformed_scale_rejected (mat : pyarray) (scale : pyobj) (strict : bool) :
  (forall n, scale <> PyInt n) ->
  (forall y x, scale <> PyTuple [PyInt y; PyInt x]) ->
  scaleMatrix mat scale strict = Raise InvalidScaleType.
Proof.
  intros Hint Hpair. destruct scale as [n|f|items].
  - by destruct (Hint n).
  - reflexivity.
  - destruct items as [|a [|b [|c items]]]; try reflexivity.
    destruct a as [ya|fa|ta], b as [xb|fb|tb]; try reflexivity.
    by destruct (Hpair ya xb).
Qed.

Lemma malformed_scale_rejected_witness :
  scaleMatrix G22 (PyTuple [PyInt 2; PyInt 2; PyInt 2]) true
    = Raise InvalidScaleType.
Proof.
  apply (malformed_scale_rejected G22 (PyTuple [PyInt 2; PyInt 2; PyInt 2]) true);
    intros; discriminate.
Defined.

(** ** [isclose] *)

Lemma Prim2SF_not_nan (b : float) : b <> nan -> Prim2SF b <> S754_nan.
Proof.
  intros Hb Hn. apply Hb. rewrite <- (FloatAxioms.SF2Prim_Prim2SF b), Hn.
  reflexivity.
Qed.

Lemma Prim2SF_not_infinity (b : float) :
  b <> infinity -> Prim2SF b <> S754_infinity false.
Proof.
  intros Hb Hn. apply Hb. rewrite <- (FloatAxioms.SF2Prim_Prim2SF b), Hn.
  reflexivity.
Qed.

Lemma abs_infinite (b : float) (s : bool) :
  Prim2SF b = S754_infinity s -> PrimFloat.abs b = infinity.
Proof.
  intros Hb. rewrite <- (FloatAxioms.SF2Prim_Prim2SF (PrimFloat.abs b)).
  rewrite FloatAxioms.abs_spec, Hb. reflexivity.
Qed.

(** A NaN is close to nothing, itself included, whatever the tolerances. *)
Theorem isclose_nan (b rel_tol abs_tol : float) :
  isclose nan b rel_tol abs_tol = false /\
  isclose b nan rel_tol abs_tol = false.
Proof.
  unfold isclose.
  rewrite !FloatAxioms.leb_spec, !FloatAxioms.abs_spec, !FloatAxioms.sub_spec.
  change (Prim2SF nan) with S754_nan. split; [reflexivity|].
  by destruct (Prim2SF b).
Qed.

(** An infinity is not close to itself, whatever the tolerances: the
    difference is a NaN. *)
Theorem isclose_same_infinity (rel_tol abs_tol : float) :
  isclose infinity infinity rel_tol abs_tol = false /\
  isclose neg_infinity neg_infinity rel_tol abs_tol = false.
Proof.
  unfold isclose.
  change (PrimFloat.abs (PrimFloat.sub infinity infinity)) with nan.
  change (PrimFloat.abs (PrimFloat.sub neg_infinity neg_infinity)) with nan.
  rewrite !FloatAxioms.leb_spec. change (Prim2SF nan) with S754_nan.
  split; reflexivity.
Qed.

(** With the default tolerances, positive infinity is close to every float
    but itself and NaN, in either argument order: the difference and the
    relative tolerance are both infinite. *)
Theorem isclose_infinity_default (b : float) :
  b <> nan -> b <> infinity ->
  isclose infinity b default_rel_tol default_abs_tol = true /\
  isclose b infinity default_rel_tol default_abs_tol = true.
Proof.
  intros Hnan Hinf.
  apply Prim2SF_not_nan in Hnan. apply Prim2SF_not_infinity in Hinf.
  assert (Hmax1 : py_max (PrimFloat.abs infinity) (PrimFloat.abs b) = infinity).
  { unfold py_max. rewrite FloatAxioms.ltb_spec, !FloatAxioms.abs_spec.
    change (Prim2SF infinity) with (S754_infinity false).
    by destruct (Prim2SF b) as [s|s| |s m e]; try destruct s. }
  assert (Hmax2 : py_max (PrimFloat.abs b) (PrimFloat.abs infinity) = infinity).
  { unfold py_max. rewrite FloatAxioms.ltb_spec, !FloatAxioms.abs_spec.
    change (Prim2SF infinity) with (S754_infinity false).
    change (PrimFloat.abs infinity) with infinity.
    destruct (Prim2SF b) as [s|s| |s m e] eqn:Hb; try done.
    simpl. by apply (abs_infinite b s). }
  unfold isclose. rewrite Hmax1, Hmax2.
  change (py_max (PrimFloat.mul default_rel_tol infinity) default_abs_tol)
    with infinity.
  rewrite !FloatAxioms.leb_spec, !FloatAxioms.abs_spec, !FloatAxioms.sub_spec.
  change (Prim2SF infinity) with (S754_infinity false).
  by destruct (Prim2SF b) as [s|s| |s m e]; try destruct s.
Qed.

Lemma isclose_infinity_default_witness :
  isclose infinity 5 default_rel_tol default_abs_tol = true /\
  isclose 5 infinity default_rel_tol default_abs_tol = true.
Proof.
  apply (isclose_infinity_default 5%float).
  - intros Heq. apply (f_equal (fun f => PrimFloat.eqb f 5)) in Heq.
    vm_compute in Heq. discriminate Heq.
  - intros Heq. apply (f_equal (fun f => PrimFloat.eqb f 5)) in Heq.
    vm_compute in Heq. discriminate Heq.
Defined.
